(** * Mesh construction kernel and binary model serializer

    A shallow embedding of the procedural mesh generators of
    [tools/generate_item_models.py] and [tools/generate_medkit.py]
    (the two files carry the same [create_box], [create_cylinder],
    [merge_meshes] and [create_glb]; [create_cone] and [create_torus] live
    in the first, [create_half_cylinder] in the second).

    Modelling conventions.
    - Python/NumPy floating-point scalars are modelled by the real numbers
      they approximate ([R], with [cos], [sin], [sqrt], [PI]); rounding to
      binary32 is not modelled.
    - A NumPy array of shape (n,3) is a list of triples; an index array is
      a list of integers.  The [np.uint32] element type is modelled by
      reduction modulo 2^32 wherever the source converts to it or does
      arithmetic on it.
    - A Python exception is the value [None]. *)

From Stdlib Require Import String.
From Stdlib Require Import List ZArith Lia Reals Lra Bool Arith.
From Stdlib.Strings Require Import Byte.
Import ListNotations.

Local Open Scope Z_scope.

(** ** Data model *)

Definition vec3 : Type := (R * R * R)%type.

(** A primitive output: the tuple [(positions, normals, colors, indices)]. *)
Record mesh : Type := mkMesh {
  positions : list vec3;
  normals   : list vec3;
  colors    : list vec3;
  indices   : list Z
}.

(** [np.uint32] arithmetic: values live modulo 2^32. *)
Definition u32 (x : Z) : Z := x mod 2 ^ 32.

(** [np.array(indices, dtype=np.uint32)] *)
Definition uint32_array (l : list Z) : list Z := map u32 l.

(** [range(n)] *)
Definition range (n : nat) : list nat := seq 0 n.

Definition ZN (n : nat) : Z := Z.of_nat n.

(** [len(xs)] as a Python integer. *)
Definition len {A : Type} (xs : list A) : Z := Z.of_nat (length xs).

(** ** PrimitiveBuilder *)

Section Builders.
Local Open Scope R_scope.

(** [create_box(w, h, d, color, origin)] *)
Definition create_box (w h d : R) (color origin : vec3) : mesh :=
  let '(ox, oy, oz) := origin in
  let hw := w / 2 in
  let hh := h / 2 in
  let hd := d / 2 in
  {| positions :=
       [ (ox - hw, oy - hh, oz + hd); (ox + hw, oy - hh, oz + hd);
         (ox + hw, oy + hh, oz + hd); (ox - hw, oy + hh, oz + hd);
         (ox + hw, oy - hh, oz - hd); (ox - hw, oy - hh, oz - hd);
         (ox - hw, oy + hh, oz - hd); (ox + hw, oy + hh, oz - hd);
         (ox - hw, oy + hh, oz + hd); (ox + hw, oy + hh, oz + hd);
         (ox + hw, oy + hh, oz - hd); (ox - hw, oy + hh, oz - hd);
         (ox - hw, oy - hh, oz - hd); (ox + hw, oy - hh, oz - hd);
         (ox + hw, oy - hh, oz + hd); (ox - hw, oy - hh, oz + hd);
         (ox + hw, oy - hh, oz + hd); (ox + hw, oy - hh, oz - hd);
         (ox + hw, oy + hh, oz - hd); (ox + hw, oy + hh, oz + hd);
         (ox - hw, oy - hh, oz - hd); (ox - hw, oy - hh, oz + hd);
         (ox - hw, oy + hh, oz + hd); (ox - hw, oy + hh, oz - hd) ];
     normals :=
       [ (0, 0, 1); (0, 0, 1); (0, 0, 1); (0, 0, 1);
         (0, 0, -1); (0, 0, -1); (0, 0, -1); (0, 0, -1);
         (0, 1, 0); (0, 1, 0); (0, 1, 0); (0, 1, 0);
         (0, -1, 0); (0, -1, 0); (0, -1, 0); (0, -1, 0);
         (1, 0, 0); (1, 0, 0); (1, 0, 0); (1, 0, 0);
         (-1, 0, 0); (-1, 0, 0); (-1, 0, 0); (-1, 0, 0) ];
     colors := repeat color 24;
     indices := uint32_array
       [ 0; 1; 2; 0; 2; 3;
         4; 5; 6; 4; 6; 7;
         8; 9; 10; 8; 10; 11;
         12; 13; 14; 12; 14; 15;
         16; 17; 18; 16; 18; 19;
         20; 21; 22; 20; 22; 23 ]%Z |}.

(** [angle = 2 * np.pi * i / segments] *)
Definition full_angle (i segments : nat) : R :=
  2 * PI * INR i / INR segments.

(** [create_cylinder(radius, height, segments, color, origin, top_radius)];
    [top_radius = None] is the Python default. *)
Definition create_cylinder (radius height : R) (segments : nat)
    (color origin : vec3) (top_radius : option R) : mesh :=
  let top_radius := match top_radius with None => radius | Some t => t end in
  let '(ox, oy, oz) := origin in
  let s := ZN segments in
  (* side surface: one bottom and one top vertex per angular step *)
  let side_p := flat_map (fun i =>
      let angle := full_angle i segments in
      let cos_a := cos angle in
      let sin_a := sin angle in
      [ (ox + radius * cos_a, oy, oz + radius * sin_a);
        (ox + top_radius * cos_a, oy + height, oz + top_radius * sin_a) ])
    (range segments) in
  let side_n := flat_map (fun i =>
      let angle := full_angle i segments in
      let cos_a := cos angle in
      let sin_a := sin angle in
      [ (cos_a, 0, sin_a); (cos_a, 0, sin_a) ])
    (range segments) in
  let side_c := flat_map (fun _ => [color; color]) (range segments) in
  let side_i := flat_map (fun i =>
      let i0 := ZN i * 2 in
      let i1 := ZN i * 2 + 1 in
      let i2 := ((ZN i + 1) mod s) * 2 in
      let i3 := ((ZN i + 1) mod s) * 2 + 1 in
      [i0; i2; i1; i1; i2; i3])%Z
    (range segments) in
  (* top cap *)
  let top_center_idx := len side_p in
  let top_p := (ox, oy + height, oz) ::
    map (fun i =>
      let angle := full_angle i segments in
      (ox + top_radius * cos angle, oy + height, oz + top_radius * sin angle))
    (range segments) in
  let top_n := (0, 1, 0) :: map (fun _ => (0, 1, 0)) (range segments) in
  let top_c := color :: map (fun _ => color) (range segments) in
  let top_i := flat_map (fun i =>
      [ top_center_idx; top_center_idx + 1 + ZN i;
        top_center_idx + 1 + ((ZN i + 1) mod s) ])%Z
    (range segments) in
  (* bottom cap *)
  let bot_center_idx := len (side_p ++ top_p) in
  let bot_p := (ox, oy, oz) ::
    map (fun i =>
      let angle := full_angle i segments in
      (ox + radius * cos angle, oy, oz + radius * sin angle))
    (range segments) in
  let bot_n := (0, -1, 0) :: map (fun _ => (0, -1, 0)) (range segments) in
  let bot_c := color :: map (fun _ => color) (range segments) in
  let bot_i := flat_map (fun i =>
      [ bot_center_idx; bot_center_idx + 1 + ((ZN i + 1) mod s);
        bot_center_idx + 1 + ZN i ])%Z
    (range segments) in
  {| positions := side_p ++ top_p ++ bot_p;
     normals := side_n ++ top_n ++ bot_n;
     colors := side_c ++ top_c ++ bot_c;
     indices := uint32_array (side_i ++ top_i ++ bot_i) |}.

(** [create_cone(radius, height, segments, color, origin)].
    [slope = radius / height] raises [ZeroDivisionError] when [height] is
    zero. *)
Definition create_cone (radius height : R) (segments : nat)
    (color origin : vec3) : option mesh :=
  let '(ox, oy, oz) := origin in
  let s := ZN segments in
  let apex_idx := 0%Z in
  if Req_EM_T height 0 then None else
  let slope := radius / height in
  let normal_len := sqrt (1 + slope * slope) in
  let side_p := (ox, oy + height, oz) ::
    map (fun i =>
      let angle := full_angle i segments in
      let cos_a := cos angle in
      let sin_a := sin angle in
      (ox + radius * cos_a, oy, oz + radius * sin_a))
    (range segments) in
  let side_n := (0, 1 / normal_len, 0) ::
    map (fun i =>
      let angle := full_angle i segments in
      let cos_a := cos angle in
      let sin_a := sin angle in
      (cos_a / normal_len, slope / normal_len, sin_a / normal_len))
    (range segments) in
  let side_c := color :: map (fun _ => color) (range segments) in
  let side_i := flat_map (fun i =>
      let i1 := 1 + ZN i in
      let i2 := 1 + ((ZN i + 1) mod s) in
      [apex_idx; i1; i2])%Z
    (range segments) in
  (* bottom cap *)
  let bot_center_idx := len side_p in
  let bot_start := len (side_p ++ [(ox, oy, oz)]) in
  let bot_p := (ox, oy, oz) ::
    map (fun i =>
      let angle := full_angle i segments in
      (ox + radius * cos angle, oy, oz + radius * sin angle))
    (range segments) in
  let bot_n := (0, -1, 0) :: map (fun _ => (0, -1, 0)) (range segments) in
  let bot_c := color :: map (fun _ => color) (range segments) in
  let bot_i := flat_map (fun i =>
      [ bot_center_idx; bot_start + ((ZN i + 1) mod s); bot_start + ZN i ])%Z
    (range segments) in
  Some {| positions := side_p ++ bot_p;
          normals := side_n ++ bot_n;
          colors := side_c ++ bot_c;
          indices := uint32_array (side_i ++ bot_i) |}.

(** [create_torus(outer_r, inner_r, segments, rings, color, origin)] *)
Definition create_torus (outer_r inner_r : R) (segments rings : nat)
    (color origin : vec3) : mesh :=
  let '(ox, oy, oz) := origin in
  let s := ZN segments in
  let r := ZN rings in
  let grid_p := flat_map (fun i =>
      let theta := full_angle i rings in
      let cos_t := cos theta in
      let sin_t := sin theta in
      let center_x := ox + (outer_r - inner_r) * cos_t in
      let center_z := oz + (outer_r - inner_r) * sin_t in
      map (fun j =>
        let phi := full_angle j segments in
        let cos_p := cos phi in
        let sin_p := sin phi in
        let x := center_x + inner_r * cos_p * cos_t in
        let y := oy + inner_r * sin_p in
        let z := center_z + inner_r * cos_p * sin_t in
        (x, y, z))
      (range segments))
    (range rings) in
  let grid_n := flat_map (fun i =>
      let theta := full_angle i rings in
      let cos_t := cos theta in
      let sin_t := sin theta in
      map (fun j =>
        let phi := full_angle j segments in
        let cos_p := cos phi in
        let sin_p := sin phi in
        let nx := cos_p * cos_t in
        let ny := sin_p in
        let nz := cos_p * sin_t in
        (nx, ny, nz))
      (range segments))
    (range rings) in
  let grid_c := flat_map (fun _ => map (fun _ => color) (range segments))
    (range rings) in
  let grid_i := flat_map (fun i =>
      flat_map (fun j =>
        let curr := ZN i * s + ZN j in
        let next_i := ((ZN i + 1) mod r) * s + ZN j in
        let next_j := ZN i * s + ((ZN j + 1) mod s) in
        let next_ij := ((ZN i + 1) mod r) * s + ((ZN j + 1) mod s) in
        [curr; next_i; next_j; next_i; next_ij; next_j])%Z
      (range segments))
    (range rings) in
  {| positions := grid_p;
     normals := grid_n;
     colors := grid_c;
     indices := uint32_array grid_i |}.

(** [angle = -np.pi/2 + np.pi * i / half_segments] *)
Definition half_angle (i half_segments : nat) : R :=
  - PI / 2 + PI * INR i / INR half_segments.

(** [create_half_cylinder(radius, height, segments, color, origin, axis)].
    The first loop always runs for [i = 0], so [half_segments = 0] raises
    [ZeroDivisionError]. *)
Definition create_half_cylinder (radius height : R) (segments : nat)
    (color origin : vec3) (axis : String.string) : option mesh :=
  let '(ox, oy, oz) := origin in
  let half_segments := (segments / 2)%nat in
  if (half_segments =? 0)%nat then None else
  let strip_i := flat_map (fun i =>
      let i0 := ZN i * 2 in
      let i1 := ZN i * 2 + 1 in
      let i2 := (ZN i + 1) * 2 in
      let i3 := (ZN i + 1) * 2 + 1 in
      [i0; i2; i1; i1; i2; i3])%Z
    (range half_segments) in
  let strip_c := flat_map (fun _ => [color; color]) (range (half_segments + 1)) in
  if String.eqb axis "x"%string then
    let strip_p := flat_map (fun i =>
        let angle := half_angle i half_segments in
        let cos_a := cos angle in
        let sin_a := sin angle in
        [ (ox, oy, oz + radius * sin_a); (ox, oy + height, oz + radius * sin_a) ])
      (range (half_segments + 1)) in
    let strip_n := flat_map (fun i =>
        let angle := half_angle i half_segments in
        let cos_a := cos angle in
        let sin_a := sin angle in
        [ (0, 0, sin_a); (0, 0, sin_a) ])
      (range (half_segments + 1)) in
    Some {| positions := strip_p; normals := strip_n; colors := strip_c;
            indices := uint32_array strip_i |}
  else
    let strip_p := flat_map (fun i =>
        let angle := half_angle i half_segments in
        let cos_a := cos angle in
        let sin_a := sin angle in
        [ (ox + radius * cos_a, oy, oz); (ox + radius * cos_a, oy + height, oz) ])
      (range (half_segments + 1)) in
    let strip_n := flat_map (fun i =>
        let angle := half_angle i half_segments in
        let cos_a := cos angle in
        let sin_a := sin angle in
        [ (cos_a, 0, 0); (cos_a, 0, 0) ])
      (range (half_segments + 1)) in
    Some {| positions := strip_p; normals := strip_n; colors := strip_c;
            indices := uint32_array strip_i |}.

End Builders.

(** ** MeshCombinator *)

(** The five loop variables of [merge_meshes]. *)
Record merge_state : Type := mkMergeState {
  all_positions : list (list vec3);
  all_normals   : list (list vec3);
  all_colors    : list (list vec3);
  all_indices   : list (list Z);
  index_offset  : Z
}.

(** [indices + index_offset] on a [uint32] array: the sum is taken modulo
    [2^32].  This is NumPy's result as long as [index_offset] is itself
    below [2^32]; a larger offset (more than 2^32 vertices before the mesh)
    is outside what the embedding describes. *)
Definition add_offset (arr : list Z) (offset : Z) : list Z :=
  map (fun i => u32 (i + offset)) arr.

(** One iteration of [for positions, normals, colors, indices in meshes]. *)
Definition merge_step (st : merge_state) (m : mesh) : merge_state :=
  {| all_positions := all_positions st ++ [positions m];
     all_normals   := all_normals st ++ [normals m];
     all_colors    := all_colors st ++ [colors m];
     all_indices   := all_indices st ++ [add_offset (indices m) (index_offset st)];
     index_offset  := index_offset st + len (positions m) |}.

Definition merge_init : merge_state :=
  {| all_positions := []; all_normals := []; all_colors := [];
     all_indices := []; index_offset := 0 |}.

(** [np.vstack] / [np.hstack]: both raise [ValueError] ("need at least one
    array to concatenate") on an empty sequence.  The arrays stacked here
    are rows of 3-vectors (shape (n,3)) by their type, so NumPy's check that
    the shapes agree is not part of the embedding. *)
Definition vstack {A : Type} (arrays : list (list A)) : option (list A) :=
  match arrays with
  | [] => None
  | _ :: _ => Some (concat arrays)
  end.

Definition hstack {A : Type} (arrays : list (list A)) : option (list A) :=
  match arrays with
  | [] => None
  | _ :: _ => Some (concat arrays)
  end.

(** [merge_meshes(meshes)] *)
Definition merge_meshes (meshes : list mesh) : option mesh :=
  let st := fold_left merge_step meshes merge_init in
  match vstack (all_positions st) with
  | None => None
  | Some p =>
    match vstack (all_normals st) with
    | None => None
    | Some n =>
      match vstack (all_colors st) with
      | None => None
      | Some c =>
        match hstack (all_indices st) with
        | None => None
        | Some i => Some {| positions := p; normals := n; colors := c; indices := i |}
        end
      end
    end
  end.

(** ** Specification vocabulary *)

(** The primitive-output invariant of the data model. *)
Definition primitive_ok (m : mesh) : Prop :=
  (length (indices m) mod 3 = 0)%nat /\
  Forall (fun i => 0 <= i < len (positions m)) (indices m) /\
  length (positions m) = length (normals m) /\
  length (normals m) = length (colors m).

(** Executable form of the invariant. *)
Definition primitive_okb (m : mesh) : bool :=
  (length (indices m) mod 3 =? 0)%nat &&
  forallb (fun i => (0 <=? i) && (i <? len (positions m))) (indices m) &&
  (length (positions m) =? length (normals m))%nat &&
  (length (normals m) =? length (colors m))%nat.

(** Sum of the vertex counts of a list of primitive outputs. *)
Definition total_vertices (ms : list mesh) : Z :=
  fold_right (fun m acc => len (positions m) + acc) 0 ms.

(** Starting vertex offset of the [k]-th input: the running sum of the
    vertex counts of the inputs before it. *)
Definition starting_offset (ms : list mesh) (k : nat) : Z :=
  total_vertices (firstn k ms).

(** The index buffer the contract describes: each input's indices shifted
    by that input's starting offset, concatenated in call order. *)
Definition offset_indices (ms : list mesh) : list Z :=
  concat (map (fun k =>
                 match nth_error ms k with
                 | Some m => map (fun i => i + starting_offset ms k) (indices m)
                 | None => []
                 end)
              (range (length ms))).

(** Consecutive index triples. *)
Fixpoint triangles (l : list Z) : list (Z * Z * Z) :=
  match l with
  | a :: b :: c :: rest => (a, b, c) :: triangles rest
  | _ => []
  end.

(** [x] lies in the offset range of the [k]-th input. *)
Definition in_range_of (ms : list mesh) (k : nat) (x : Z) : Prop :=
  match nth_error ms k with
  | Some m => starting_offset ms k <= x < starting_offset ms k + len (positions m)
  | None => False
  end.

(** All three corners of a triangle come from one input's range. *)
Definition triangle_from_one_input (ms : list mesh) (t : Z * Z * Z) : Prop :=
  let '(a, b, c) := t in
  exists k, in_range_of ms k a /\ in_range_of ms k b /\ in_range_of ms k c.

(** ** BinaryAssetWriter *)

(** glTF enumeration values exported by [pygltflib]. *)
Definition ARRAY_BUFFER : Z := 34962.
Definition ELEMENT_ARRAY_BUFFER : Z := 34963.
Definition FLOAT : Z := 5126.
Definition UNSIGNED_INT : Z := 5125.
Definition TRIANGLES : Z := 4.

Record BufferView : Type := mkBufferView {
  buffer     : Z;
  byteOffset : nat;
  byteLength : nat;
  target     : Z
}.

Record Accessor : Type := mkAccessor {
  bufferView    : Z;
  componentType : Z;
  count         : nat;
  type          : string;
  acc_min       : option (list R);
  acc_max       : option (list R)
}.

Record Primitive : Type := mkPrimitive {
  attributes   : list (string * Z);
  prim_indices : Z;
  mode         : Z
}.

Record Mesh : Type := mkGltfMesh { primitives : list Primitive }.
Record Node : Type := mkNode { node_mesh : Z }.
Record Scene : Type := mkScene { scene_nodes : list Z }.
Record Buffer : Type := mkBuffer { buffer_byteLength : nat }.

Record GLTF2 : Type := mkGLTF2 {
  buffers     : list Buffer;
  bufferViews : list BufferView;
  accessors   : list Accessor;
  meshes      : list Mesh;
  nodes       : list Node;
  scenes      : list Scene;
  scene       : Z;
  binary_blob : list byte
}.

(** One byte of an integer. *)
Definition byte_of_Z (z : Z) : byte :=
  match Byte.of_N (Z.to_N (Z.land z 255)) with
  | Some b => b
  | None => x00
  end.

(** Little-endian bytes of one [uint32] element. *)
Definition uint32_bytes (x : Z) : list byte :=
  [ byte_of_Z x; byte_of_Z (Z.shiftr x 8);
    byte_of_Z (Z.shiftr x 16); byte_of_Z (Z.shiftr x 24) ].

(** [data + b'\x00' * padding] with [padding = (4 - (len(data) % 4)) % 4] *)
Definition pad_to_4 (data : list byte) : list byte :=
  let padding := ((4 - (length data mod 4)) mod 4)%nat in
  data ++ repeat x00 padding.

(** [arr.min(axis=0)] on one column; NumPy raises [ValueError] on a
    zero-size array. *)
Definition column_min (col : list R) : option R :=
  match col with
  | [] => None
  | x :: xs => Some (fold_left Rmin xs x)
  end.

Definition column_max (col : list R) : option R :=
  match col with
  | [] => None
  | x :: xs => Some (fold_left Rmax xs x)
  end.

Definition vx (v : vec3) : R := fst (fst v).
Definition vy (v : vec3) : R := snd (fst v).
Definition vz (v : vec3) : R := snd v.

(** [positions.min(axis=0).tolist()] *)
Definition min_axis0 (arr : list vec3) : option (list R) :=
  match column_min (map vx arr), column_min (map vy arr), column_min (map vz arr) with
  | Some a, Some b, Some c => Some [a; b; c]
  | _, _, _ => None
  end.

Definition max_axis0 (arr : list vec3) : option (list R) :=
  match column_max (map vx arr), column_max (map vy arr), column_max (map vz arr) with
  | Some a, Some b, Some c => Some [a; b; c]
  | _, _, _ => None
  end.

Section Writer.

(** The four bytes NumPy stores for one [float32] element (IEEE-754
    binary32, little endian); the encoding itself lies outside the
    embedding. *)
Variable float32_bytes : R -> list byte.

(** [arr.astype(np.float32).tobytes()] for an array of shape (n,3). *)
Definition vec3_tobytes (arr : list vec3) : list byte :=
  flat_map (fun v => float32_bytes (vx v) ++ float32_bytes (vy v) ++ float32_bytes (vz v)) arr.

(** [indices.astype(np.uint32)] *)
Definition astype_uint32 (arr : list Z) : list Z := map u32 arr.

(** [indices.tobytes()] on a [uint32] array. *)
Definition index_tobytes (arr : list Z) : list byte :=
  flat_map uint32_bytes arr.

(** [binary_data = pos_padded + norm_padded + color_padded + index_padded] *)
Definition glb_binary_data (pos_bytes norm_bytes color_bytes index_bytes : list byte)
    : list byte :=
  let pos_padded := pad_to_4 pos_bytes in
  let norm_padded := pad_to_4 norm_bytes in
  let color_padded := pad_to_4 color_bytes in
  let index_padded := pad_to_4 index_bytes in
  pos_padded ++ norm_padded ++ color_padded ++ index_padded.

(** The four [BufferView(...)] descriptors. *)
Definition glb_buffer_views (pos_bytes norm_bytes color_bytes index_bytes : list byte)
    : list BufferView :=
  let pos_padded := pad_to_4 pos_bytes in
  let norm_padded := pad_to_4 norm_bytes in
  let color_padded := pad_to_4 color_bytes in
  let pos_view :=
    {| buffer := 0; byteOffset := 0;
       byteLength := length pos_bytes; target := ARRAY_BUFFER |} in
  let norm_view :=
    {| buffer := 0; byteOffset := length pos_padded;
       byteLength := length norm_bytes; target := ARRAY_BUFFER |} in
  let color_view :=
    {| buffer := 0; byteOffset := length pos_padded + length norm_padded;
       byteLength := length color_bytes; target := ARRAY_BUFFER |} in
  let index_view :=
    {| buffer := 0;
       byteOffset := length pos_padded + length norm_padded + length color_padded;
       byteLength := length index_bytes; target := ELEMENT_ARRAY_BUFFER |} in
  [pos_view; norm_view; color_view; index_view].

(** [create_glb(positions, normals, colors, indices, output_path)] up to
    its call [gltf.save(output_path)]: the path and document handed to
    [save], together with the triangle count returned after it.
    [positions.min(axis=0)] raises on an empty array, so [None] means that
    [save] is never reached; the write itself is [create_glb_and_save]. *)
Definition create_glb (positions normals colors : list vec3) (indices : list Z)
    (output_path : string) : option (string * GLTF2 * nat) :=
  let indices := astype_uint32 indices in
  let pos_bytes := vec3_tobytes positions in
  let norm_bytes := vec3_tobytes normals in
  let color_bytes := vec3_tobytes colors in
  let index_bytes := index_tobytes indices in
  let binary_data := glb_binary_data pos_bytes norm_bytes color_bytes index_bytes in
  let views := glb_buffer_views pos_bytes norm_bytes color_bytes index_bytes in
  match min_axis0 positions, max_axis0 positions with
  | Some lo, Some hi =>
    let pos_accessor :=
      {| bufferView := 0; componentType := FLOAT; count := length positions;
         type := "VEC3"; acc_min := Some lo; acc_max := Some hi |} in
    let norm_accessor :=
      {| bufferView := 1; componentType := FLOAT; count := length normals;
         type := "VEC3"; acc_min := None; acc_max := None |} in
    let color_accessor :=
      {| bufferView := 2; componentType := FLOAT; count := length colors;
         type := "VEC3"; acc_min := None; acc_max := None |} in
    let index_accessor :=
      {| bufferView := 3; componentType := UNSIGNED_INT; count := length indices;
         type := "SCALAR"; acc_min := None; acc_max := None |} in
    let primitive :=
      {| attributes := [("POSITION"%string, 0); ("NORMAL"%string, 1); ("COLOR_0"%string, 2)];
         prim_indices := 3; mode := TRIANGLES |} in
    let mesh := {| primitives := [primitive] |} in
    let node := {| node_mesh := 0 |} in
    let scene := {| scene_nodes := [0] |} in
    let gltf :=
      {| buffers := [ {| buffer_byteLength := length binary_data |} ];
         bufferViews := views;
         accessors := [pos_accessor; norm_accessor; color_accessor; index_accessor];
         meshes := [mesh]; nodes := [node]; scenes := [scene]; scene := 0;
         binary_blob := binary_data |} in
    let tri_count := (length indices / 3)%nat in
    Some (output_path, gltf, tri_count)
  | _, _ => None
  end.

(** The whole of [create_glb]: [save path gltf] tells whether
    [gltf.save(output_path)] wrote the file ([false] when it raises); the
    triangle count is returned only after a successful write. *)
Definition create_glb_and_save (save : string -> GLTF2 -> bool)
    (positions normals colors : list vec3) (indices : list Z)
    (output_path : string) : option nat :=
  match create_glb positions normals colors indices output_path with
  | Some (path, gltf, tri_count) =>
      if save path gltf then Some tri_count else None
  | None => None
  end.

End Writer.

(** The per-input index arrays [merge_meshes] accumulates when its loop
    starts at offset [off]. *)
Fixpoint shifted (off : Z) (ms : list mesh) : list (list Z) :=
  match ms with
  | [] => []
  | m :: rest => add_offset (indices m) off :: shifted (off + len (positions m)) rest
  end.

(** The same arrays with exact integer addition. *)
Fixpoint shifted_exact (off : Z) (ms : list mesh) : list (list Z) :=
  match ms with
  | [] => []
  | m :: rest =>
      map (fun i => i + off) (indices m) :: shifted_exact (off + len (positions m)) rest
  end.

(** ** Geometric measurements *)

Section Measures.
Local Open Scope R_scope.

(** Euclidean length of a normal. *)
Definition norm (v : vec3) : R :=
  sqrt (vx v * vx v + vy v * vy v + vz v * vz v).

(** Unit length up to a tolerance. *)
Definition unit_within (tol : R) (v : vec3) : Prop :=
  Rabs (norm v - 1) <= tol.

(** Distance of a position from the vertical (height) axis through
    [origin]. *)
Definition axis_distance (origin v : vec3) : R :=
  sqrt ((vx v - vx origin) * (vx v - vx origin) +
        (vz v - vz origin) * (vz v - vz origin)).

(** [lo] is the exact minimum of the non-empty column [col]. *)
Definition is_min_of (col : list R) (lo : R) : Prop :=
  In lo col /\ Forall (fun x => lo <= x) col.

Definition is_max_of (col : list R) (hi : R) : Prop :=
  In hi col /\ Forall (fun x => x <= hi) col.

End Measures.

(** Reading the binary blob back: the byte range a buffer view names. *)
Definition view_bytes (blob : list byte) (v : BufferView) : list byte :=
  firstn (byteLength v) (skipn (byteOffset v) blob).

(** The integer a little-endian byte quadruple stores. *)
Definition uint32_of_bytes (bs : list byte) : option Z :=
  match bs with
  | [b0; b1; b2; b3] =>
      Some (Z.of_N (Byte.to_N b0) + 256 * Z.of_N (Byte.to_N b1)
            + 65536 * Z.of_N (Byte.to_N b2) + 16777216 * Z.of_N (Byte.to_N b3))
  | _ => None
  end.

(** [padded] is [data] followed by the fewest zero bytes that bring its
    length to a multiple of 4. *)
Definition padded_to_4 (data padded : list byte) : Prop :=
  exists k, (k < 4)%nat /\ padded = data ++ repeat x00 k /\
            (length padded mod 4 = 0)%nat.

(** The blob layout the writer contract describes: four padded ranges in
    the order positions, normals, colors, indices; view offsets are the
    running sums of the preceding padded lengths, view lengths are the
    unpadded lengths, and each view reads back its array's bytes. *)
Definition glb_layout (blob : list byte) (views : list BufferView)
    (pos_bytes norm_bytes color_bytes index_bytes : list byte) : Prop :=
  exists pos_padded norm_padded color_padded index_padded,
    padded_to_4 pos_bytes pos_padded /\
    padded_to_4 norm_bytes norm_padded /\
    padded_to_4 color_bytes color_padded /\
    padded_to_4 index_bytes index_padded /\
    blob = pos_padded ++ norm_padded ++ color_padded ++ index_padded /\
    map byteOffset views =
      [ 0; length pos_padded; length pos_padded + length norm_padded;
        length pos_padded + length norm_padded + length color_padded ]%nat /\
    map byteLength views =
      [ length pos_bytes; length norm_bytes; length color_bytes; length index_bytes ] /\
    map (view_bytes blob) views = [pos_bytes; norm_bytes; color_bytes; index_bytes].

(** Reading a [uint32] array back from its bytes, four at a time. *)
Fixpoint decode_uint32_array (bs : list byte) : option (list Z) :=
  match bs with
  | [] => Some []
  | b0 :: b1 :: b2 :: b3 :: rest =>
      match uint32_of_bytes [b0; b1; b2; b3], decode_uint32_array rest with
      | Some x, Some xs => Some (x :: xs)
      | _, _ => None
      end
  | _ => None
  end.

(** The scalars of an (n,3) array in the order [tobytes] stores them
    (row-major: x, y, z of the first vector, then of the second, ...). *)
Definition components (arr : list vec3) : list R :=
  flat_map (fun v => [vx v; vy v; vz v]) arr.

(** Splitting the bytes of a [float32] array into its 4-byte elements. *)
Fixpoint float32_elements (bs : list byte) : option (list (list byte)) :=
  match bs with
  | [] => Some []
  | b0 :: b1 :: b2 :: b3 :: rest =>
      match float32_elements rest with
      | Some es => Some ([b0; b1; b2; b3] :: es)
      | None => None
      end
  | _ => None
  end.

(** A triangle with all three indices moved by [off]. *)
Definition shift_triangle (off : Z) (t : Z * Z * Z) : Z * Z * Z :=
  let '(a, b, c) := t in (a + off, b + off, c + off).

(** ** Triangle orientation *)

Section Orientation.
Local Open Scope R_scope.

Definition vsub (a b : vec3) : vec3 :=
  (vx a - vx b, vy a - vy b, vz a - vz b).

Definition cross (a b : vec3) : vec3 :=
  (vy a * vz b - vz a * vy b,
   vz a * vx b - vx a * vz b,
   vx a * vy b - vy a * vx b).

Definition dot (a b : vec3) : R :=
  vx a * vx b + vy a * vy b + vz a * vz b.

(** The array element an index refers to. *)
Definition vertex (arr : list vec3) (i : Z) : option vec3 :=
  nth_error arr (Z.to_nat i).

(** How triangle [(a, b, c)] of mesh [m] is wound relative to the normal
    stored at its first vertex: the triple product
    [n_a . ((p_b - p_a) x (p_c - p_a))], positive when the triangle is
    counter-clockwise seen from the side the normal points to. *)
Definition winding (m : mesh) (t : Z * Z * Z) : option R :=
  let '(a, b, c) := t in
  match vertex (positions m) a, vertex (positions m) b, vertex (positions m) c,
        vertex (normals m) a with
  | Some pa, Some pb, Some pc, Some na =>
      Some (dot na (cross (vsub pb pa) (vsub pc pa)))
  | _, _, _, _ => None
  end.

(** The ring vertex [create_cylinder] emits at angular step [i]: radius
    [r], height [y]. *)
Definition ring_point (ox oz r y : R) (i segments : nat) : vec3 :=
  (ox + r * cos (full_angle i segments), y, oz + r * sin (full_angle i segments)).

(** The radial side normal at angular step [i]. *)
Definition radial (i segments : nat) : vec3 :=
  (cos (full_angle i segments), 0, sin (full_angle i segments)).

(** [(i + 1) % segments] *)
Definition next_step (i segments : nat) : nat := (S i mod segments)%nat.

End Orientation.

(** ** Error propagation *)

(** Sequencing of calls that may raise. *)
Definition bind {A B : Type} (o : option A) (k : A -> option B) : option B :=
  match o with
  | Some a => k a
  | None => None
  end.

Notation "x <- e ;; k" := (bind e (fun x => k))
  (at level 61, e at next level, right associativity).

(** ** Item models ([tools/generate_item_models.py]) *)

Module GenerateItemModels.
Section Items.
Local Open Scope R_scope.


(** [create_flashlight()] *)
Definition create_flashlight : option mesh :=
  let body_yellow := (0.72, 0.62, 0.38) in
  let body_dark := (0.25, 0.22, 0.18) in
  let head_gray := (0.35, 0.35, 0.38) in
  let lens_color := (0.75, 0.82, 0.88) in
  let worn_edge := (0.55, 0.48, 0.32) in
  let button_color := (0.65, 0.18, 0.15) in
  let clip_color := (0.5, 0.5, 0.52) in
  let meshes :=
    [ create_cylinder 0.032 0.14 12 body_yellow (0, 0, 0) None;
      create_cylinder 0.036 0.04 12 body_yellow (0, 0.05, 0) None ]
    ++ map (fun i =>
              let grip_y := 0.02 + INR i * 0.04 in
              create_cylinder 0.034 0.018 12 body_dark (0, grip_y, 0) None)
           (range 3)
    ++ [ create_cylinder 0.042 0.055 12 body_yellow (0, 0.14, 0) None;
         create_cylinder 0.046 0.02 12 head_gray (0, 0.195, 0) None;
         create_cylinder 0.038 0.008 12 lens_color (0, 0.215, 0) None;
         create_cylinder 0.033 0.018 12 head_gray (0, -0.018, 0) None;
         create_box 0.012 0.01 0.012 button_color (0, 0.08, 0.035);
         create_box 0.003 0.08 0.012 clip_color (-0.038, 0.06, 0);
         create_box 0.006 0.015 0.012 clip_color (-0.038, 0.11, 0);
         create_box 0.025 0.003 0.002 worn_edge (0.025, 0.07, 0.03);
         create_box 0.02 0.003 0.002 worn_edge (-0.02, 0.12, -0.032);
         create_box 0.045 0.008 0.045 head_gray (0, 0.148, 0) ] in
  merge_meshes meshes.

(** [create_medkit()] *)
Definition create_medkit : option mesh :=
  let base_red := (0.55, 0.12, 0.1) in
  let base_red_dark := (0.4, 0.08, 0.06) in
  let cross_white := (0.88, 0.85, 0.8) in
  let handle_gray := (0.4, 0.38, 0.35) in
  let latch_metal := (0.55, 0.53, 0.5) in
  let dirt_edge := (0.35, 0.12, 0.1) in
  let corner_r := 0.015 in
  let corner_segments := 6%nat in
  let corners :=
    [ (-0.0575, 0, 0.035); (0.0575, 0, 0.035);
      (-0.0575, 0, -0.035); (0.0575, 0, -0.035) ] in
  let protector_corners :=
    [ (-0.065, 0.0425, 0.043); (0.065, 0.0425, 0.043);
      (-0.065, 0.0425, -0.043); (0.065, 0.0425, -0.043) ] in
  let meshes :=
    [ create_box 0.13 0.085 0.085 base_red (0, 0.0425, 0) ]
    ++ map (fun '(cx, _, cz) =>
              create_cylinder corner_r 0.085 corner_segments base_red (cx, 0, cz) None)
           corners
    ++ [ create_box 0.135 0.015 0.09 base_red_dark (0, 0.0925, 0);
         create_box 0.065 0.018 0.006 cross_white (0, 0.1, 0.045);
         create_box 0.018 0.065 0.006 cross_white (0, 0.1, 0.045);
         create_box 0.055 0.018 0.025 handle_gray (0, 0.1, 0);
         create_box 0.045 0.015 0.012 handle_gray (0, 0.118, 0) ]
    ++ map (fun side =>
              create_box 0.012 0.025 0.012 handle_gray (side * 0.025, 0.108, 0))
           [-1; 1]
    ++ flat_map (fun side =>
              [ create_box 0.022 0.035 0.018 latch_metal (side * 0.055, 0.09, 0.035);
                create_box 0.015 0.012 0.008 latch_metal (side * 0.055, 0.1, 0.043) ])
           [-1; 1]
    ++ map (fun '(cx, cy, cz) =>
              create_box 0.015 0.085 0.015 base_red_dark (cx, cy, cz))
           protector_corners
    ++ map (fun i =>
              let dirt_x := -0.04 + INR i * 0.04 in
              create_box 0.015 0.003 0.003 dirt_edge (dirt_x, 0.087, 0.042))
           (range 3)
    ++ map (fun side =>
              create_box 0.003 0.06 0.003 base_red_dark (side * 0.065, 0.04, 0))
           [-1; 1] in
  merge_meshes meshes.

(** [create_toolbox()] *)
Definition create_toolbox : option mesh :=
  let body_blue := (0.28, 0.32, 0.38) in
  let body_blue_dark := (0.2, 0.22, 0.26) in
  let body_red := (0.45, 0.18, 0.15) in
  let handle_black := (0.15, 0.15, 0.15) in
  let metal_light := (0.5, 0.5, 0.52) in
  let metal_dark := (0.35, 0.35, 0.38) in
  let scratch_color := (0.45, 0.47, 0.5) in
  let bracket_corners :=
    [ (-0.0925, 0.045, 0.048); (0.0925, 0.045, 0.048);
      (-0.0925, 0.045, -0.048); (0.0925, 0.045, -0.048) ] in
  let scratches :=
    [ (0.05, 0.03, 0.048, 0.025, 0.002);
      (-0.06, 0.055, 0.048, 0.03, 0.002);
      (0.02, 0.075, 0.048, 0.02, 0.002);
      (-0.04, 0.04, -0.048, 0.025, 0.002) ] in
  let meshes :=
    [ create_box 0.18 0.09 0.095 body_blue (0, 0.045, 0);
      create_box 0.185 0.012 0.1 body_blue_dark (0, 0.006, 0);
      create_box 0.185 0.018 0.1 body_blue (0, 0.099, 0);
      create_box 0.188 0.01 0.102 metal_dark (0, 0.113, 0);
      create_box 0.19 0.012 0.1 metal_light (0, 0.025, 0);
      create_box 0.19 0.012 0.1 metal_light (0, 0.065, 0) ]
    ++ map (fun side =>
              create_box 0.03 0.035 0.025 metal_dark (side * 0.07, 0.116, 0))
           [-1; 1]
    ++ [ create_cylinder 0.014 0.12 8 handle_black (0, 0.135, 0) None ]
    ++ map (fun side =>
              create_cylinder 0.016 0.01 8 metal_dark (side * 0.062, 0.135, 0) None)
           [-1; 1]
    ++ [ create_box 0.045 0.025 0.018 metal_light (0, 0.105, 0.05);
         create_box 0.035 0.015 0.012 metal_dark (0, 0.118, 0.053) ]
    ++ map (fun '(cx, cy, cz) =>
              create_box 0.018 0.09 0.018 metal_dark (cx, cy, cz))
           bracket_corners
    ++ [ create_box 0.14 0.02 0.008 body_blue_dark (0, 0.085, 0) ]
    ++ map (fun '(sx, sy, sz, slen, swid) =>
              create_box slen 0.002 swid scratch_color (sx, sy, sz))
           scratches
    ++ [ create_box 0.185 0.006 0.006 metal_light (0, 0.115, 0.05);
         create_box 0.185 0.006 0.006 metal_light (0, 0.115, -0.05) ]
    ++ map (fun side =>
              create_box 0.015 0.02 0.01 metal_light (side * 0.08, 0.1, 0.045))
           [-1; 1] in
  merge_meshes meshes.

(** [create_map()] *)
Definition create_map : option mesh :=
  let paper_base := (0.78, 0.72, 0.55) in
  let paper_dark := (0.65, 0.58, 0.42) in
  let paper_light := (0.85, 0.8, 0.65) in
  let print_color := (0.35, 0.4, 0.35) in
  let mark_red := (0.6, 0.2, 0.18) in
  let edge_worn := (0.55, 0.5, 0.38) in
  let meshes :=
    [ create_box 0.15 0.004 0.11 paper_base (0, 0.002, 0);
      create_box 0.15 0.003 0.052 paper_light (0, 0.0055, 0.03);
      create_box 0.15 0.003 0.052 paper_dark (0, 0.0055, -0.03);
      create_box 0.15 0.005 0.002 paper_dark (0, 0.004, 0.0);
      create_box 0.15 0.005 0.002 paper_dark (0, 0.004, 0.055);
      create_box 0.15 0.005 0.002 paper_dark (0, 0.004, -0.055);
      create_cylinder 0.006 0.15 6 edge_worn (0, 0.006, 0.058) None;
      create_cylinder 0.005 0.15 6 edge_worn (0, 0.005, -0.058) None;
      create_box 0.022 0.005 0.003 mark_red (-0.035, 0.005, 0.015);
      create_box 0.003 0.005 0.022 mark_red (-0.035, 0.005, 0.015);
      create_box 0.05 0.005 0.001 print_color (0.02, 0.005, 0.0);
      create_box 0.001 0.005 0.04 print_color (0.045, 0.005, -0.02);
      create_cylinder 0.012 0.005 6 print_color (0.055, 0.005, -0.04) None;
      create_box 0.002 0.005 0.015 print_color (0.055, 0.005, -0.04);
      create_box 0.025 0.003 0.003 edge_worn (0.07, 0.0035, 0.054);
      create_box 0.02 0.003 0.003 edge_worn (-0.065, 0.0035, -0.053);
      create_box 0.025 0.005 0.015 print_color (-0.05, 0.005, 0.025) ] in
  merge_meshes meshes.

End Items.
End GenerateItemModels.

(** ** Standalone medkit ([tools/generate_medkit.py]) *)

Module GenerateMedkit.
Section Medkit.
Local Open Scope R_scope.

(** [create_medkit()] *)
Definition create_medkit : option mesh :=
  let red_primary := (0.58, 0.12, 0.10) in
  let red_dark := (0.42, 0.08, 0.06) in
  let red_light := (0.68, 0.18, 0.15) in
  let white_cross := (0.92, 0.90, 0.85) in
  let handle_gray := (0.38, 0.36, 0.34) in
  let handle_dark := (0.28, 0.26, 0.24) in
  let metal_silver := (0.55, 0.53, 0.50) in
  let dirt_brown := (0.32, 0.18, 0.12) in
  let box_w := 0.14 in
  let box_h := 0.08 in
  let box_d := 0.09 in
  let corner_r := 0.018 in
  let center_w := box_w - corner_r * 2 in
  left_edge <- create_half_cylinder corner_r box_h 8 red_primary
                 (- center_w / 2, 0, 0) "z" ;;
  right_edge <- create_half_cylinder corner_r box_h 8 red_primary
                  (center_w / 2, 0, 0) "z" ;;
  let lid_h := 0.012 in
  let cross_w := 0.055 in
  let cross_h_bar := 0.015 in
  let cross_thick := 0.003 in
  let cross_v := 0.055 in
  let handle_base_w := 0.045 in
  let handle_base_d := 0.022 in
  let handle_base_h := 0.015 in
  let handle_arc_r := 0.028 in
  let handle_arc_w := 0.012 in
  let handle_arc_segments := 5%nat in
  let latch_w := 0.018 in
  let latch_h := 0.032 in
  let latch_d := 0.012 in
  let corner_prot_w := 0.015 in
  let corner_prot_h := box_h * 0.6 in
  let corners :=
    [ (- box_w / 2 + corner_prot_w / 2, box_h / 2, box_d / 2);
      (box_w / 2 - corner_prot_w / 2, box_h / 2, box_d / 2);
      (- box_w / 2 + corner_prot_w / 2, box_h / 2, - box_d / 2);
      (box_w / 2 - corner_prot_w / 2, box_h / 2, - box_d / 2) ] in
  let dirt_positions :=
    [ (-0.04, box_h + lid_h + 0.002, 0.02);
      (0.03, box_h + lid_h + 0.002, -0.03);
      (0.05, box_h * 0.5, box_d / 2 + 0.002) ] in
  let meshes :=
    [ create_box center_w box_h box_d red_primary (0, box_h / 2, 0);
      left_edge;
      right_edge;
      create_box (box_w + 0.004) lid_h (box_d + 0.004) red_dark
                 (0, box_h + lid_h / 2, 0);
      create_box (box_w + 0.006) 0.004 (box_d + 0.006) red_light
                 (0, box_h + lid_h + 0.002, 0);
      create_box cross_w cross_h_bar cross_thick white_cross
                 (0, box_h + lid_h + cross_thick / 2, box_d / 2 - 0.01);
      create_box cross_h_bar cross_v cross_thick white_cross
                 (0, box_h + lid_h + cross_thick / 2, box_d / 2 - 0.01);
      create_box handle_base_w handle_base_h handle_base_d handle_gray
                 (0, box_h + lid_h + handle_base_h / 2, 0) ]
    ++ map (fun i =>
              let t := INR i / (INR handle_arc_segments - 1) in
              let angle := - PI / 2 + PI * t in
              let y_offset :=
                box_h + lid_h + handle_base_h + handle_arc_r * sin angle * 0.4 in
              let z_offset := handle_arc_r * cos angle * 0.3 in
              create_box handle_arc_w 0.01 0.012 handle_gray (0, y_offset, z_offset))
           (range handle_arc_segments)
    ++ map (fun side =>
              create_box 0.01 0.025 0.01 handle_dark
                         (side * 0.022, box_h + lid_h + 0.012, 0))
           [-1; 1]
    ++ flat_map (fun side =>
              [ create_box latch_w latch_h latch_d metal_silver
                           (side * 0.05, box_h * 0.6, box_d / 2);
                create_box (latch_w - 0.004) 0.012 0.006 metal_silver
                           (side * 0.05, box_h * 0.75, box_d / 2 + 0.008) ])
           [-1; 1]
    ++ map (fun '(cx, cy, cz) =>
              create_box corner_prot_w corner_prot_h corner_prot_w red_dark (cx, cy, cz))
           corners
    ++ map (fun '(dx, dy, dz) =>
              create_box 0.012 0.002 0.008 dirt_brown (dx, dy, dz))
           dirt_positions
    ++ map (fun side =>
              create_box 0.003 (box_h * 0.7) 0.003 red_dark
                         (side * (box_w / 2 + 0.001), box_h / 2, 0))
           [-1; 1]
    ++ map (fun '(fx, fz) =>
              create_box 0.015 0.004 0.015 handle_dark (fx, 0.002, fz))
           [ (-0.04, -0.03); (0.04, -0.03); (-0.04, 0.03); (0.04, 0.03) ] in
  merge_meshes meshes.

End Medkit.
End GenerateMedkit.

(** * Verification *)

(** ** Counting lemmas *)

Lemma length_flat_map_const {A B : Type} (f : A -> list B) (k : nat) (l : list A) :
  (forall a, length (f a) = k) -> length (flat_map f l) = (k * length l)%nat.
Proof.
  intros Hf. induction l as [|a l IH]; simpl.
  - lia.
  - rewrite length_app, Hf, IH. lia.
Qed.

Lemma create_cylinder_counts radius height segments color origin top_radius :
  let m := create_cylinder radius height segments color origin top_radius in
  length (positions m) = (4 * segments + 2)%nat /\
  length (normals m) = (4 * segments + 2)%nat /\
  length (colors m) = (4 * segments + 2)%nat /\
  length (indices m) = (12 * segments)%nat.
Proof.
  destruct origin as [[ox oy] oz].
  unfold create_cylinder, uint32_array, range; cbn [positions normals colors indices].
  repeat rewrite ?length_app, ?length_map, ?length_cons, ?length_seq,
    ?(length_flat_map_const _ 2), ?(length_flat_map_const _ 6),
    ?(length_flat_map_const _ 3) by reflexivity.
  repeat split; lia.
Qed.

(** ** Arithmetic of the index type *)

Lemma u32_range (x n : Z) : 0 <= x < n -> 0 <= u32 x < n.
Proof.
  intros [H0 Hn]. unfold u32.
  pose proof (Z.mod_pos_bound x (2 ^ 32) ltac:(lia)).
  pose proof (Z.mod_le x (2 ^ 32) H0 ltac:(lia)).
  lia.
Qed.

Lemma u32_small (x : Z) : 0 <= x < 2 ^ 32 -> u32 x = x.
Proof. intros H. unfold u32. apply Z.mod_small. exact H. Qed.

Lemma succ_mod_bound (i s : nat) : (i < s)%nat -> 0 <= (ZN i + 1) mod ZN s < ZN s.
Proof. intros H. unfold ZN. apply Z.mod_pos_bound. lia. Qed.

Lemma in_range_lt (i n : nat) : In i (range n) -> (i < n)%nat.
Proof. unfold range. rewrite in_seq. lia. Qed.

(** ** The primitive-output invariant *)

Lemma primitive_okb_correct (m : mesh) : primitive_okb m = true <-> primitive_ok m.
Proof.
  unfold primitive_okb, primitive_ok.
  rewrite !andb_true_iff, !Nat.eqb_eq, forallb_forall, Forall_forall.
  split.
  - intros [[[H1 H2] H3] H4]. repeat split; auto;
      apply H2 in H; apply andb_true_iff in H; destruct H; lia.
  - intros (H1 & H2 & H3 & H4). repeat split; auto.
    intros x Hx. apply H2 in Hx. apply andb_true_iff. split; lia.
Qed.

Lemma Forall_uint32_array (n : Z) (l : list Z) :
  Forall (fun i => 0 <= i < n) l -> Forall (fun i => 0 <= i < n) (uint32_array l).
Proof.
  unfold uint32_array. intros H. apply Forall_map.
  eapply Forall_impl; [|exact H]. intros a Ha. apply u32_range. exact Ha.
Qed.

Lemma create_box_ok w h d color origin : primitive_ok (create_box w h d color origin).
Proof.
  destruct origin as [[ox oy] oz].
  unfold primitive_ok, create_box; cbn [positions normals colors indices].
  repeat split; try reflexivity.
  apply Forall_uint32_array. unfold len. cbn [length].
  repeat constructor; lia.
Qed.

(** Every element produced by a loop body over [range n] satisfies [P]. *)
Lemma Forall_loop {B : Type} (P : B -> Prop) (f : nat -> list B) (n : nat) :
  (forall i, (i < n)%nat -> Forall P (f i)) -> Forall P (flat_map f (range n)).
Proof.
  intros H. apply Forall_flat_map. apply Forall_forall.
  intros i Hi. apply H. apply in_range_lt. exact Hi.
Qed.

Ltac count_lengths :=
  unfold len, range;
  repeat rewrite ?length_app, ?length_map, ?length_cons, ?length_nil, ?length_seq,
    ?(length_flat_map_const _ 2), ?(length_flat_map_const _ 6),
    ?(length_flat_map_const _ 3) by reflexivity.

Lemma some_eq {A : Type} (a b : A) : Some a = Some b -> a = b.
Proof. intros H. congruence. Qed.

Ltac each_element := repeat first [apply Forall_nil | apply Forall_cons].

Lemma create_cylinder_ok radius height segments color origin top_radius :
  primitive_ok (create_cylinder radius height segments color origin top_radius).
Proof.
  pose proof (create_cylinder_counts radius height segments color origin top_radius)
    as (Hp & Hn & Hc & Hi).
  unfold primitive_ok. rewrite Hi. unfold len. rewrite Hp, Hn, Hc.
  repeat split; try reflexivity.
  - replace (12 * segments)%nat with (4 * segments * 3)%nat by lia.
    apply Nat.Div0.mod_mul.
  - destruct origin as [[ox oy] oz].
    unfold create_cylinder; cbn [indices].
    apply Forall_uint32_array.
    repeat rewrite Forall_app. repeat split; apply Forall_loop; intros i Hlt;
      pose proof (succ_mod_bound i segments Hlt);
      count_lengths; unfold ZN in *; each_element; lia.
Qed.

Lemma create_cone_counts radius height segments color origin m :
  create_cone radius height segments color origin = Some m ->
  length (positions m) = (2 * segments + 2)%nat /\
  length (normals m) = (2 * segments + 2)%nat /\
  length (colors m) = (2 * segments + 2)%nat /\
  length (indices m) = (6 * segments)%nat.
Proof.
  destruct origin as [[ox oy] oz]. unfold create_cone.
  destruct (Req_EM_T height 0); [discriminate|].
  intros H; apply some_eq in H; subst m. unfold uint32_array; cbn [positions normals colors indices].
  count_lengths. repeat split; lia.
Qed.

Lemma create_cone_returns radius height segments color origin :
  height <> 0%R -> exists m, create_cone radius height segments color origin = Some m.
Proof.
  intros Hh. destruct origin as [[ox oy] oz]. unfold create_cone.
  destruct (Req_EM_T height 0); [contradiction|]. eexists; reflexivity.
Qed.


Lemma length_grid {B : Type} (f : nat -> nat -> B) (rings segments : nat) :
  length (flat_map (fun i => map (f i) (range segments)) (range rings))
  = (rings * segments)%nat.
Proof.
  rewrite (length_flat_map_const _ segments).
  - unfold range. rewrite length_seq. lia.
  - intros a. unfold range. rewrite length_map, length_seq. reflexivity.
Qed.

Lemma create_torus_counts outer_r inner_r segments rings color origin :
  let m := create_torus outer_r inner_r segments rings color origin in
  length (positions m) = (rings * segments)%nat /\
  length (normals m) = (rings * segments)%nat /\
  length (colors m) = (rings * segments)%nat /\
  length (indices m) = (6 * (rings * segments))%nat.
Proof.
  destruct origin as [[ox oy] oz].
  unfold create_torus, uint32_array; cbn [positions normals colors indices].
  rewrite !length_grid, length_map. repeat split.
  rewrite (length_flat_map_const _ (6 * segments)).
  - unfold range. rewrite length_seq. lia.
  - intros a. rewrite (length_flat_map_const _ 6) by reflexivity.
    unfold range. rewrite length_seq. reflexivity.
Qed.


Lemma create_half_cylinder_counts radius height segments color origin axis m :
  create_half_cylinder radius height segments color origin axis = Some m ->
  length (positions m) = (2 * (segments / 2 + 1))%nat /\
  length (normals m) = (2 * (segments / 2 + 1))%nat /\
  length (colors m) = (2 * (segments / 2 + 1))%nat /\
  length (indices m) = (6 * (segments / 2))%nat.
Proof.
  destruct origin as [[ox oy] oz]. unfold create_half_cylinder.
  destruct (segments / 2 =? 0)%nat; [discriminate|].
  destruct (String.eqb axis "x"); intros H; apply some_eq in H; subst m;
    unfold uint32_array; cbn [positions normals colors indices];
    count_lengths; repeat split; lia.
Qed.

Lemma create_half_cylinder_returns radius height segments color origin axis :
  (2 <= segments)%nat ->
  exists m, create_half_cylinder radius height segments color origin axis = Some m.
Proof.
  intros Hs. destruct origin as [[ox oy] oz]. unfold create_half_cylinder.
  assert (Hh : (segments / 2 =? 0)%nat = false).
  { apply Nat.eqb_neq. pose proof (Nat.Div0.div_le_mono 2 segments 2 Hs) as H.
    change (2 / 2)%nat with 1%nat in H. lia. }
  rewrite Hh. destruct (String.eqb axis "x"); eexists; reflexivity.
Qed.

Lemma create_half_cylinder_ok radius height segments color origin axis m :
  create_half_cylinder radius height segments color origin axis = Some m ->
  primitive_ok m.
Proof.
  intros Hm.
  pose proof (create_half_cylinder_counts _ _ _ _ _ _ _ Hm) as (Hp & Hn & Hc & Hi).
  unfold primitive_ok. rewrite Hi. unfold len. rewrite Hp, Hn, Hc.
  repeat split; try reflexivity.
  - replace (6 * (segments / 2))%nat with (2 * (segments / 2) * 3)%nat by lia.
    apply Nat.Div0.mod_mul.
  - clear Hp Hn Hc Hi.
    destruct origin as [[ox oy] oz]. unfold create_half_cylinder in Hm.
    destruct (segments / 2 =? 0)%nat; [discriminate|].
    destruct (String.eqb axis "x"); apply some_eq in Hm; subst m; cbn [indices];
      apply Forall_uint32_array; apply Forall_loop; intros i Hlt;
      unfold ZN; each_element; lia.
Qed.

(** ** The merge loop *)

Lemma merge_loop (ms : list mesh) : forall st,
  fold_left merge_step ms st =
  {| all_positions := all_positions st ++ map positions ms;
     all_normals   := all_normals st ++ map normals ms;
     all_colors    := all_colors st ++ map colors ms;
     all_indices   := all_indices st ++ shifted (index_offset st) ms;
     index_offset  := index_offset st + total_vertices ms |}.
Proof.
  induction ms as [|m ms IH]; intros st.
  - destruct st; cbn. rewrite !app_nil_r, Z.add_0_r. reflexivity.
  - cbn [fold_left]. rewrite IH. unfold merge_step, total_vertices.
    cbn [all_positions all_normals all_colors all_indices index_offset
         map shifted fold_right].
    rewrite <- !app_assoc. cbn [app]. f_equal. lia.
Qed.

Lemma merge_meshes_nonempty (ms : list mesh) :
  ms <> [] ->
  merge_meshes ms =
  Some {| positions := concat (map positions ms);
          normals := concat (map normals ms);
          colors := concat (map colors ms);
          indices := concat (shifted 0 ms) |}.
Proof.
  intros Hne. unfold merge_meshes. rewrite merge_loop. cbn.
  destruct ms as [|m ms]; [contradiction|]. reflexivity.
Qed.

Lemma merge_meshes_empty : merge_meshes [] = None.
Proof. reflexivity. Qed.

Lemma len_app {A : Type} (l1 l2 : list A) : len (l1 ++ l2) = len l1 + len l2.
Proof. unfold len. rewrite length_app. lia. Qed.

Lemma len_nonneg {A : Type} (l : list A) : 0 <= len l.
Proof. unfold len. lia. Qed.

Lemma total_vertices_cons (m : mesh) (ms : list mesh) :
  total_vertices (m :: ms) = len (positions m) + total_vertices ms.
Proof. reflexivity. Qed.

Lemma total_vertices_nonneg (ms : list mesh) : 0 <= total_vertices ms.
Proof.
  induction ms as [|m ms IH]; [reflexivity|].
  rewrite total_vertices_cons. pose proof (len_nonneg (positions m)). lia.
Qed.

Lemma len_concat_positions (ms : list mesh) :
  len (concat (map positions ms)) = total_vertices ms.
Proof.
  induction ms as [|m ms IH]; [reflexivity|].
  cbn [map concat]. rewrite len_app, IH, total_vertices_cons. reflexivity.
Qed.

Lemma length_concat_same_shape {A B : Type} (f : mesh -> list A) (g : mesh -> list B)
    (ms : list mesh) :
  Forall (fun m => length (f m) = length (g m)) ms ->
  length (concat (map f ms)) = length (concat (map g ms)).
Proof.
  induction 1 as [|m ms Hm _ IH]; cbn; [reflexivity|].
  rewrite !length_app, Hm, IH. reflexivity.
Qed.

(** Below 2^32 the [uint32] sums are the exact sums. *)
Lemma shifted_is_exact (ms : list mesh) : forall off,
  Forall primitive_ok ms -> 0 <= off -> off + total_vertices ms <= 2 ^ 32 ->
  shifted off ms = shifted_exact off ms.
Proof.
  induction ms as [|m ms IH]; intros off Hok Hoff Hbound; [reflexivity|].
  inversion Hok as [|? ? Hm Hrest]; subst.
  rewrite total_vertices_cons in Hbound. cbn [shifted shifted_exact].
  pose proof (len_nonneg (positions m)). pose proof (total_vertices_nonneg ms).
  f_equal.
  - unfold add_offset. apply map_ext_in. intros i Hi.
    destruct Hm as (_ & Hidx & _). rewrite Forall_forall in Hidx.
    apply Hidx in Hi. apply u32_small. lia.
  - apply IH; auto; lia.
Qed.

Lemma starting_offset_cons (m : mesh) (ms : list mesh) (k : nat) :
  starting_offset (m :: ms) (S k) = len (positions m) + starting_offset ms k.
Proof. reflexivity. Qed.

Lemma shifted_exact_by_offset (ms : list mesh) : forall off,
  shifted_exact off ms =
  map (fun k => match nth_error ms k with
                | Some m => map (fun i => i + (off + starting_offset ms k)) (indices m)
                | None => []
                end)
      (range (length ms)).
Proof.
  induction ms as [|m ms IH]; intros off; [reflexivity|].
  unfold range in *. cbn [shifted_exact length seq map nth_error].
  f_equal.
  - apply map_ext. intros i. unfold starting_offset.
    cbn [firstn total_vertices fold_right]. lia.
  - rewrite IH, <- seq_shift, map_map. apply map_ext. intros k.
    cbn [nth_error]. destruct (nth_error ms k); [|reflexivity].
    apply map_ext. intros i. rewrite starting_offset_cons. lia.
Qed.

Lemma concat_shifted_exact (ms : list mesh) :
  concat (shifted_exact 0 ms) = offset_indices ms.
Proof.
  unfold offset_indices. rewrite shifted_exact_by_offset. f_equal.
Qed.

(** ** Triangles of an index buffer *)

Lemma triple_induction (P : list Z -> Prop) :
  P [] -> (forall a, P [a]) -> (forall a b, P [a; b]) ->
  (forall a b c rest, P rest -> P (a :: b :: c :: rest)) ->
  forall l, P l.
Proof.
  intros H0 H1 H2 H3. fix IH 1.
  intros [|a [|b [|c rest]]];
    [apply H0 | apply H1 | apply H2 | apply H3; apply IH].
Qed.

Lemma triangles_app (l1 l2 : list Z) :
  (length l1 mod 3 = 0)%nat -> triangles (l1 ++ l2) = triangles l1 ++ triangles l2.
Proof.
  induction l1 as [| a | a b | a b c rest IH] using triple_induction;
    cbn [length]; intros H; try discriminate H.
  - reflexivity.
  - cbn. f_equal. apply IH.
    replace (S (S (S (length rest)))) with (length rest + 1 * 3)%nat in H by lia.
    rewrite Nat.Div0.mod_add in H. exact H.
Qed.

Lemma length_triangles (l : list Z) :
  (length l mod 3 = 0)%nat -> (3 * length (triangles l))%nat = length l.
Proof.
  induction l as [| a | a b | a b c rest IH] using triple_induction;
    cbn [length]; intros H; try discriminate H.
  - reflexivity.
  - cbn [triangles length].
    replace (S (S (S (length rest)))) with (length rest + 1 * 3)%nat in H by lia.
    rewrite Nat.Div0.mod_add in H. apply IH in H. lia.
Qed.

Lemma Forall_triangles (P : Z -> Prop) (l : list Z) :
  Forall P l ->
  Forall (fun t => let '(a, b, c) := t in P a /\ P b /\ P c) (triangles l).
Proof.
  induction l as [| a | a b | a b c rest IH] using triple_induction;
    intros H; cbn [triangles]; try constructor.
  - inversion H as [|? ? Ha H']; subst. inversion H' as [|? ? Hb H'']; subst.
    inversion H'' as [|? ? Hc H''']; subst. auto.
  - apply IH. inversion H as [|? ? Ha H']; subst. inversion H' as [|? ? Hb H'']; subst.
    inversion H'' as [|? ? Hc H''']; subst. assumption.
Qed.

Lemma length_concat_mod3 (ls : list (list Z)) :
  Forall (fun l => (length l mod 3 = 0)%nat) ls -> (length (concat ls) mod 3 = 0)%nat.
Proof.
  induction 1 as [|l ls Hl _ IH]; [reflexivity|].
  cbn [concat]. rewrite length_app, Nat.Div0.add_mod, Hl, IH. reflexivity.
Qed.

Lemma shifted_mod3 (ms : list mesh) : forall off,
  Forall primitive_ok ms -> Forall (fun l => (length l mod 3 = 0)%nat) (shifted off ms).
Proof.
  induction ms as [|m ms IH]; intros off Hok; [constructor|].
  inversion Hok as [|? ? Hm Hrest]; subst. cbn [shifted]. constructor.
  - unfold add_offset. rewrite length_map. apply Hm.
  - apply IH. assumption.
Qed.

(** Every merged index addresses a vertex of the merged mesh, whatever the
    size of the inputs. *)
Lemma shifted_in_bounds (ms : list mesh) : forall off,
  Forall primitive_ok ms -> 0 <= off ->
  Forall (fun i => 0 <= i < off + total_vertices ms) (concat (shifted off ms)).
Proof.
  induction ms as [|m ms IH]; intros off Hok Hoff; [constructor|].
  inversion Hok as [|? ? Hm Hrest]; subst.
  cbn [shifted concat]. rewrite total_vertices_cons.
  pose proof (len_nonneg (positions m)). pose proof (total_vertices_nonneg ms).
  apply Forall_app. split.
  - unfold add_offset. apply Forall_map. destruct Hm as (_ & Hidx & _).
    eapply Forall_impl; [|exact Hidx]. intros i Hi. cbv beta in *.
    apply u32_range. lia.
  - eapply Forall_impl; [|apply (IH (off + len (positions m))); auto; lia].
    intros i Hi. cbv beta in *. lia.
Qed.

(** [merge_meshes] keeps the primitive-output invariant. *)
Lemma merge_meshes_ok (ms : list mesh) :
  ms <> [] -> Forall primitive_ok ms ->
  exists r, merge_meshes ms = Some r /\ primitive_ok r.
Proof.
  intros Hne Hok. rewrite (merge_meshes_nonempty ms Hne).
  eexists; split; [reflexivity|].
  unfold primitive_ok; cbn [positions normals colors indices].
  repeat split.
  - apply length_concat_mod3. apply shifted_mod3. exact Hok.
  - rewrite len_concat_positions.
    apply (shifted_in_bounds ms 0 Hok). lia.
  - apply length_concat_same_shape. eapply Forall_impl; [|exact Hok].
    intros m Hm. apply Hm.
  - apply length_concat_same_shape. eapply Forall_impl; [|exact Hok].
    intros m Hm. apply Hm.
Qed.

Lemma triangles_shifted_exact (ms : list mesh) : forall off,
  Forall primitive_ok ms ->
  Forall (fun t => let '(a, b, c) := t in
            exists k m, nth_error ms k = Some m /\
              let lo := off + starting_offset ms k in
              let hi := lo + len (positions m) in
              lo <= a < hi /\ lo <= b < hi /\ lo <= c < hi)
         (triangles (concat (shifted_exact off ms))).
Proof.
  induction ms as [|m ms IH]; intros off Hok; [constructor|].
  inversion Hok as [|? ? Hm Hrest]; subst.
  cbn [shifted_exact concat]. destruct Hm as (Hmod & Hidx & _).
  rewrite triangles_app by (rewrite length_map; exact Hmod).
  apply Forall_app. split.
  - assert (Hsh : Forall (fun x => off <= x < off + len (positions m))
                         (map (fun i => i + off) (indices m))).
    { apply Forall_map. eapply Forall_impl; [|exact Hidx].
      intros i Hi. cbv beta in *. lia. }
    apply Forall_triangles in Hsh. eapply Forall_impl; [|exact Hsh].
    intros [[a b] c] H. exists 0%nat, m. split; [reflexivity|].
    unfold starting_offset. cbn [firstn total_vertices fold_right]. cbv zeta. lia.
  - eapply Forall_impl; [|apply (IH (off + len (positions m)) Hrest)].
    intros [[a b] c] (k & m' & Hk & H). exists (S k), m'. split; [exact Hk|].
    rewrite starting_offset_cons. cbv zeta in *. lia.
Qed.

Lemma triangles_from_one_input (ms : list mesh) :
  Forall primitive_ok ms ->
  Forall (triangle_from_one_input ms) (triangles (offset_indices ms)).
Proof.
  intros Hok. rewrite <- concat_shifted_exact.
  eapply Forall_impl; [|apply (triangles_shifted_exact ms 0 Hok)].
  intros [[a b] c] (k & m & Hk & H). cbv zeta in H.
  unfold triangle_from_one_input, in_range_of. exists k. rewrite Hk. lia.
Qed.

(** ** MeshCombinator contract *)

(** C1 (as amended).  For every non-empty ordered list of well-formed
    primitive outputs whose total vertex count stays below 2^32 (the range
    of the [uint32] index type), [merge_meshes] returns a compound mesh
    whose vertex arrays are the inputs' arrays in call order, whose vertex
    count is the sum of the inputs' vertex counts, whose index buffer is
    the concatenation of each input's indices shifted by that input's
    starting vertex offset, and every triangle of which has its three
    indices inside the offset range of a single input.  In particular, in
    [merge(A, B)] every index contributed by [B] is its original value
    plus [len(A.positions)]. *)
Theorem merge_meshes_contract (ms : list mesh) :
  ms <> [] ->
  Forall primitive_ok ms ->
  total_vertices ms < 2 ^ 32 ->
  exists r,
    merge_meshes ms = Some r /\
    positions r = concat (map positions ms) /\
    len (positions r) = total_vertices ms /\
    indices r = offset_indices ms /\
    (3 * length (triangles (indices r)))%nat = length (indices r) /\
    Forall (triangle_from_one_input ms) (triangles (indices r)) /\
    (forall A B, ms = [A; B] ->
       len (positions r) = len (positions A) + len (positions B) /\
       indices r = indices A ++ map (fun i => i + len (positions A)) (indices B)).
Proof.
  intros Hne Hok Hbound.
  rewrite (merge_meshes_nonempty ms Hne).
  eexists; split; [reflexivity|]. cbn [positions indices].
  assert (Hidx : concat (shifted 0 ms) = offset_indices ms).
  { rewrite shifted_is_exact by (auto; lia). apply concat_shifted_exact. }
  rewrite Hidx, len_concat_positions.
  repeat split.
  - apply length_triangles. rewrite <- Hidx.
    apply length_concat_mod3, shifted_mod3, Hok.
  - apply triangles_from_one_input, Hok.
  - subst ms. rewrite !total_vertices_cons. cbn [total_vertices fold_right]. lia.
  - subst ms. rewrite <- concat_shifted_exact.
    cbn [shifted_exact concat]. rewrite app_nil_r.
    replace (map (fun i => i + 0) (indices A)) with (indices A).
    + f_equal.
    + rewrite <- (map_id (indices A)) at 1. apply map_ext. intros i. lia.
Qed.

(** C1, counterexample to the claim as stated.  (1) The empty list is a
    list of well-formed primitive outputs, and on it [merge_meshes] returns
    no compound mesh.  (2) The shifted indices are [uint32] values: when a
    mesh of 2^32 - 1 vertices precedes a triangle, the triangle's indices
    1 and 2 come out as 0 and 1 instead of 2^32 and 2^32 + 1. *)
Lemma merge_meshes_contract_fails :
  (Forall primitive_ok [] /\
   ~ (exists r, merge_meshes [] = Some r /\
                len (positions r) = total_vertices [] /\
                indices r = offset_indices [])) /\
  (let big := repeat (0, 0, 0)%R (Z.to_nat (2 ^ 32 - 1)) in
   let A := {| positions := big; normals := big; colors := big; indices := [] |} in
   let tri := [(0, 0, 0); (1, 0, 0); (0, 1, 0)]%R in
   let B := {| positions := tri; normals := tri; colors := tri; indices := [0; 1; 2] |} in
   Forall primitive_ok [A; B] /\
   exists r, merge_meshes [A; B] = Some r /\
             indices r = [2 ^ 32 - 1; 0; 1] /\
             offset_indices [A; B] = [2 ^ 32 - 1; 2 ^ 32; 2 ^ 32 + 1] /\
             indices r <> offset_indices [A; B]).
Proof.
  split.
  - split; [constructor|]. intros (r & Hr & _). rewrite merge_meshes_empty in Hr.
    discriminate Hr.
  - intros big A tri B.
    assert (HA : len (positions A) = 2 ^ 32 - 1).
    { unfold len, A, big. cbn [positions]. rewrite repeat_length. apply Z2Nat.id. lia. }
    split.
    + each_element.
      * unfold primitive_ok. cbn [indices positions normals colors A].
        repeat split. constructor.
      * unfold primitive_ok. cbn [indices positions normals colors B].
        repeat split. unfold len, tri. cbn [length]. each_element; lia.
    + rewrite merge_meshes_nonempty by discriminate.
      eexists. split; [reflexivity|]. cbn [indices].
      assert (H1 : concat (shifted 0 [A; B]) = [2 ^ 32 - 1; 0; 1]).
      { cbn [shifted concat].
        replace (0 + len (positions A)) with (2 ^ 32 - 1) by (rewrite HA; reflexivity).
        reflexivity. }
      assert (H2 : offset_indices [A; B] = [2 ^ 32 - 1; 2 ^ 32; 2 ^ 32 + 1]).
      { rewrite <- concat_shifted_exact. cbn [shifted_exact concat].
        replace (0 + len (positions A)) with (2 ^ 32 - 1) by (rewrite HA; reflexivity).
        reflexivity. }
      rewrite H1, H2. repeat split. discriminate.
Qed.

(** C1, witness: merging a box (24 vertices) with a six-segment cylinder
    (26 vertices) gives 50 vertices, and the cylinder's indices are shifted
    by 24. *)
Lemma merge_meshes_contract_witness :
  let A := create_box 0.28 0.18 0.10 (0.545, 0.118, 0.118)%R (0, 0, 0)%R in
  let B := create_cylinder 0.02 0.05 6 (0.5, 0.5, 0.5)%R (0, 0, 0)%R None in
  exists r,
    merge_meshes [A; B] = Some r /\
    len (positions r) = 50 /\
    indices r = indices A ++ map (fun i => i + 24) (indices B).
Proof.
  intros A B.
  assert (HA : len (positions A) = 24) by reflexivity.
  assert (HB : len (positions B) = 26).
  { unfold len, B.
    rewrite (proj1 (create_cylinder_counts 0.02 0.05 6 (0.5, 0.5, 0.5)%R (0, 0, 0)%R None)).
    reflexivity. }
  destruct (merge_meshes_contract [A; B]) as (r & Hr & _ & _ & _ & _ & _ & Hab).
  - discriminate.
  - each_element; [apply create_box_ok | apply create_cylinder_ok].
  - rewrite !total_vertices_cons, HA, HB. reflexivity.
  - destruct (Hab A B eq_refl) as [Hlen Hidx]. rewrite HA, HB in Hlen. rewrite HA in Hidx.
    exists r. repeat split; assumption.
Defined.

(** ** PrimitiveBuilder invariant *)



(** ** Cylinder size *)

(** C6.  For every [N >= 3], any positive radius and height, any color,
    origin and optional top radius, [create_cylinder(segments=N)] yields
    exactly [4N+2] vertices and exactly [12N] indices, that is [4N]
    triangles. *)
Theorem create_cylinder_size (N : nat) (radius height : R) (color origin : vec3)
    (top_radius : option R) :
  (3 <= N)%nat -> (0 < radius)%R -> (0 < height)%R ->
  let m := create_cylinder radius height N color origin top_radius in
  length (positions m) = (4 * N + 2)%nat /\
  length (indices m) = (12 * N)%nat /\
  length (triangles (indices m)) = (4 * N)%nat.
Proof.
  intros _ _ _ m.
  pose proof (create_cylinder_counts radius height N color origin top_radius)
    as (Hp & _ & _ & Hi).
  fold m in Hp, Hi. split; [exact Hp|]. split; [exact Hi|].
  pose proof (length_triangles (indices m)) as Ht.
  rewrite Hi in Ht.
  replace (12 * N)%nat with (4 * N * 3)%nat in Ht by lia.
  rewrite Nat.Div0.mod_mul in Ht. specialize (Ht eq_refl). lia.
Qed.

(** C6, witness: the six-segment cylinder has 26 vertices and 72 indices. *)
Lemma create_cylinder_size_witness :
  let m := create_cylinder 0.02 0.05 6 (0.5, 0.5, 0.5)%R (0, 0, 0)%R (Some 0.015%R) in
  length (positions m) = 26%nat /\
  length (indices m) = 72%nat /\
  length (triangles (indices m)) = 24%nat.
Proof.
  apply (create_cylinder_size 6 0.02 0.05 (0.5, 0.5, 0.5)%R (0, 0, 0)%R (Some 0.015%R));
    [lia | lra | lra].
Defined.

(** ** Empty merge *)

(** C4 (as amended).  [merge_meshes] applied to the empty list raises: its
    loop runs no iteration, so [all_positions] is still the empty list when
    it is passed to [np.vstack], which rejects an empty sequence; no mesh
    is returned. *)
Theorem merge_meshes_of_empty_list :
  all_positions (fold_left merge_step [] merge_init) = [] /\
  vstack (all_positions (fold_left merge_step [] merge_init)) = None /\
  merge_meshes [] = None /\
  (forall r, merge_meshes [] <> Some r).
Proof.
  split; [reflexivity|]. split; [reflexivity|]. split; [reflexivity|].
  intros r. discriminate.
Qed.

(** C4, counterexample to the claim as stated: on the empty list
    [merge_meshes] does not succeed, so in particular it does not return
    four empty buffers. *)
Lemma merge_meshes_empty_list_raises :
  merge_meshes [] = None /\
  merge_meshes [] <>
    Some {| positions := []; normals := []; colors := []; indices := [] |}.
Proof. split; [reflexivity | discriminate]. Qed.

(** ** Half-cylinder size *)

Lemma half_of_succ_even (N : nat) : Nat.Even N -> ((N + 1) / 2 = N / 2)%nat.
Proof.
  intros [k ->].
  rewrite (Nat.mul_comm 2 k), Nat.div_add_l, Nat.div_mul by lia.
  change (1 / 2)%nat with 0%nat. lia.
Qed.

(** C10.  [create_half_cylinder] uses its [segments] parameter only through
    [segments // 2]: for every [N >= 2] it emits exactly
    [2 * (floor(N/2) + 1)] vertices and [6 * floor(N/2)] indices, and for
    every even [N] the outputs for [segments = N] and [segments = N + 1]
    are identical. *)
Theorem create_half_cylinder_size (N : nat) (radius height : R) (color origin : vec3)
    (axis : string) :
  ((2 <= N)%nat ->
   exists m, create_half_cylinder radius height N color origin axis = Some m /\
             length (positions m) = (2 * (N / 2 + 1))%nat /\
             length (indices m) = (6 * (N / 2))%nat) /\
  (Nat.Even N ->
   create_half_cylinder radius height N color origin axis =
   create_half_cylinder radius height (N + 1) color origin axis).
Proof.
  split.
  - intros HN.
    destruct (create_half_cylinder_returns radius height N color origin axis HN) as [m Hm].
    exists m. split; [exact Hm|].
    pose proof (create_half_cylinder_counts _ _ _ _ _ _ _ Hm) as (Hp & _ & _ & Hi).
    split; assumption.
  - intros Heven. destruct origin as [[ox oy] oz]. unfold create_half_cylinder.
    rewrite (half_of_succ_even N Heven). reflexivity.
Qed.

(** C10, witness: eight segments give 10 vertices and 24 indices, and nine
    segments give the same mesh. *)
Lemma create_half_cylinder_size_witness :
  let c := (0.58, 0.12, 0.10)%R in
  let o := (0, 0, 0)%R in
  (exists m, create_half_cylinder 0.018 0.08 8 c o "z" = Some m /\
             length (positions m) = 10%nat /\ length (indices m) = 24%nat) /\
  create_half_cylinder 0.018 0.08 8 c o "z" = create_half_cylinder 0.018 0.08 9 c o "z".
Proof.
  intros c o.
  destruct (create_half_cylinder_size 8 0.018 0.08 c o "z") as [Hsize Hodd].
  split.
  - apply Hsize. lia.
  - apply Hodd. exists 4%nat. reflexivity.
Defined.

(** ** Binary layout *)

Lemma pad_to_4_padded (data : list byte) : padded_to_4 data (pad_to_4 data).
Proof.
  unfold padded_to_4, pad_to_4.
  exists ((4 - length data mod 4) mod 4)%nat.
  pose proof (Nat.mod_upper_bound (length data) 4 ltac:(lia)) as Hr.
  pose proof (Nat.div_mod_eq (length data) 4) as Hq.
  split; [apply Nat.mod_upper_bound; lia|]. split; [reflexivity|].
  rewrite length_app, repeat_length.
  remember (length data mod 4)%nat as r eqn:Er.
  remember (length data / 4)%nat as q eqn:Eq.
  rewrite Hq.
  destruct r as [|[|[|[|r]]]]; [| | | |lia]; cbn [Nat.sub].
  - change (4 mod 4)%nat with 0%nat.
    replace (4 * q + 0 + 0)%nat with (q * 4)%nat by lia. apply Nat.Div0.mod_mul.
  - change (3 mod 4)%nat with 3%nat.
    replace (4 * q + 1 + 3)%nat with ((q + 1) * 4)%nat by lia. apply Nat.Div0.mod_mul.
  - change (2 mod 4)%nat with 2%nat.
    replace (4 * q + 2 + 2)%nat with ((q + 1) * 4)%nat by lia. apply Nat.Div0.mod_mul.
  - change (1 mod 4)%nat with 1%nat.
    replace (4 * q + 3 + 1)%nat with ((q + 1) * 4)%nat by lia. apply Nat.Div0.mod_mul.
Qed.

Lemma firstn_prefix {A : Type} (l1 l2 : list A) : firstn (length l1) (l1 ++ l2) = l1.
Proof. induction l1 as [|a l1 IH]; cbn; [destruct l2; reflexivity | rewrite IH; reflexivity]. Qed.

Lemma skipn_prefix {A : Type} (l1 l2 : list A) (n : nat) :
  skipn (length l1 + n) (l1 ++ l2) = skipn n l2.
Proof. induction l1 as [|a l1 IH]; cbn; [reflexivity | exact IH]. Qed.

Lemma view_after_prefix (before data padding rest : list byte) (v : BufferView) :
  byteOffset v = length before -> byteLength v = length data ->
  view_bytes (before ++ (data ++ padding) ++ rest) v = data.
Proof.
  intros Hoff Hlen. unfold view_bytes. rewrite Hoff, Hlen.
  rewrite <- (Nat.add_0_r (length before)), skipn_prefix. cbn [skipn].
  rewrite <- app_assoc. apply firstn_prefix.
Qed.

Lemma view_of_padded (before data rest : list byte) (v : BufferView) :
  byteOffset v = length before -> byteLength v = length data ->
  view_bytes (before ++ pad_to_4 data ++ rest) v = data.
Proof. intros Hoff Hlen. unfold pad_to_4. apply view_after_prefix; assumption. Qed.

Lemma glb_layout_holds (pos_bytes norm_bytes color_bytes index_bytes : list byte) :
  glb_layout (glb_binary_data pos_bytes norm_bytes color_bytes index_bytes)
             (glb_buffer_views pos_bytes norm_bytes color_bytes index_bytes)
             pos_bytes norm_bytes color_bytes index_bytes.
Proof.
  unfold glb_layout.
  exists (pad_to_4 pos_bytes), (pad_to_4 norm_bytes),
         (pad_to_4 color_bytes), (pad_to_4 index_bytes).
  repeat (split; [apply pad_to_4_padded|]).
  split; [reflexivity|]. split; [reflexivity|]. split; [reflexivity|].
  unfold glb_binary_data, glb_buffer_views. cbn [map].
  set (pp := pad_to_4 pos_bytes). set (np := pad_to_4 norm_bytes).
  set (cp := pad_to_4 color_bytes). set (ip := pad_to_4 index_bytes).
  f_equal; [|f_equal; [|f_equal; [|f_equal]]].
  - apply (view_of_padded [] pos_bytes (np ++ cp ++ ip)); reflexivity.
  - apply (view_of_padded pp norm_bytes (cp ++ ip)); reflexivity.
  - rewrite (app_assoc pp np).
    apply (view_of_padded (pp ++ np) color_bytes ip); [|reflexivity].
    cbn [byteOffset]. rewrite length_app. reflexivity.
  - rewrite (app_assoc np cp), (app_assoc pp (np ++ cp)), <- (app_nil_r ip).
    apply (view_of_padded (pp ++ np ++ cp) index_bytes []); [|reflexivity].
    cbn [byteOffset]. rewrite !length_app. lia.
Qed.

(** ** The 32-bit index encoding *)

Lemma byte_of_Z_value (z : Z) : Z.of_N (Byte.to_N (byte_of_Z z)) = z mod 256.
Proof.
  assert (Hland : Z.land z 255 = z mod 256).
  { change 255 with (Z.ones 8). rewrite Z.land_ones by lia. reflexivity. }
  pose proof (Z.mod_pos_bound z 256 ltac:(lia)) as Hb.
  unfold byte_of_Z. rewrite Hland.
  destruct (Byte.of_N (Z.to_N (z mod 256))) as [b|] eqn:E.
  - apply Byte.to_of_N in E. rewrite E. apply Z2N.id. lia.
  - apply Byte.of_N_None_iff in E. lia.
Qed.

Lemma uint32_bytes_decode (x : Z) :
  0 <= x < 2 ^ 32 -> uint32_of_bytes (uint32_bytes x) = Some x.
Proof.
  intros Hx. unfold uint32_bytes, uint32_of_bytes.
  rewrite !byte_of_Z_value, !Z.shiftr_div_pow2 by lia. f_equal.
  change (2 ^ 8) with 256. change (2 ^ 16) with 65536. change (2 ^ 24) with 16777216.
  change (2 ^ 32) with 4294967296 in Hx.
  Z.div_mod_to_equations. lia.
Qed.

Lemma length_index_tobytes (arr : list Z) :
  length (index_tobytes arr) = (4 * length arr)%nat.
Proof. unfold index_tobytes. apply length_flat_map_const. reflexivity. Qed.

Lemma u32_bounds (x : Z) : 0 <= u32 x < 2 ^ 32.
Proof. unfold u32. apply Z.mod_pos_bound. lia. Qed.

(** ** Bounding box *)

Lemma fold_Rmin_is_min (xs : list R) : forall x, is_min_of (x :: xs) (fold_left Rmin xs x).
Proof.
  induction xs as [|y ys IH]; intros x.
  - split; [left; reflexivity|]. each_element. apply Rle_refl.
  - cbn [fold_left]. destruct (IH (Rmin x y)) as [Hin Hle].
    inversion Hle as [|? ? Hhd Htl]; subst.
    pose proof (Rmin_l x y). pose proof (Rmin_r x y). split.
    + destruct Hin as [Heq|Hin].
      * rewrite <- Heq. unfold Rmin. destruct (Rle_dec x y); [left | right; left]; reflexivity.
      * right; right; exact Hin.
    + each_element; try lra. exact Htl.
Qed.

Lemma fold_Rmax_is_max (xs : list R) : forall x, is_max_of (x :: xs) (fold_left Rmax xs x).
Proof.
  induction xs as [|y ys IH]; intros x.
  - split; [left; reflexivity|]. each_element. apply Rle_refl.
  - cbn [fold_left]. destruct (IH (Rmax x y)) as [Hin Hle].
    inversion Hle as [|? ? Hhd Htl]; subst.
    pose proof (Rmax_l x y). pose proof (Rmax_r x y). split.
    + destruct Hin as [Heq|Hin].
      * rewrite <- Heq. unfold Rmax. destruct (Rle_dec x y); [right; left | left]; reflexivity.
      * right; right; exact Hin.
    + each_element; try lra. exact Htl.
Qed.

Lemma column_min_is_min (col : list R) :
  col <> [] -> exists lo, column_min col = Some lo /\ is_min_of col lo.
Proof.
  destruct col as [|x xs]; [contradiction|]. intros _.
  eexists; split; [reflexivity|]. apply fold_Rmin_is_min.
Qed.

Lemma column_max_is_max (col : list R) :
  col <> [] -> exists hi, column_max col = Some hi /\ is_max_of col hi.
Proof.
  destruct col as [|x xs]; [contradiction|]. intros _.
  eexists; split; [reflexivity|]. apply fold_Rmax_is_max.
Qed.

Lemma is_min_of_unique (col : list R) (a b : R) :
  is_min_of col a -> is_min_of col b -> a = b.
Proof.
  intros [Ha Hla] [Hb Hlb]. rewrite Forall_forall in Hla, Hlb.
  apply Rle_antisym; [apply Hla | apply Hlb]; assumption.
Qed.

Lemma is_max_of_unique (col : list R) (a b : R) :
  is_max_of col a -> is_max_of col b -> a = b.
Proof.
  intros [Ha Hla] [Hb Hlb]. rewrite Forall_forall in Hla, Hlb.
  apply Rle_antisym; [apply Hlb | apply Hla]; assumption.
Qed.

Lemma map_nonempty {A B : Type} (f : A -> B) (l : list A) : l <> [] -> map f l <> [].
Proof. destruct l; [contradiction | discriminate]. Qed.

Lemma min_axis0_is_min (arr : list vec3) :
  arr <> [] ->
  exists a b c, min_axis0 arr = Some [a; b; c] /\
    is_min_of (map vx arr) a /\ is_min_of (map vy arr) b /\ is_min_of (map vz arr) c.
Proof.
  intros Hne. unfold min_axis0.
  destruct (column_min_is_min (map vx arr) (map_nonempty vx arr Hne)) as (a & -> & Ha).
  destruct (column_min_is_min (map vy arr) (map_nonempty vy arr Hne)) as (b & -> & Hb).
  destruct (column_min_is_min (map vz arr) (map_nonempty vz arr Hne)) as (c & -> & Hc).
  exists a, b, c. auto.
Qed.

Lemma max_axis0_is_max (arr : list vec3) :
  arr <> [] ->
  exists a b c, max_axis0 arr = Some [a; b; c] /\
    is_max_of (map vx arr) a /\ is_max_of (map vy arr) b /\ is_max_of (map vz arr) c.
Proof.
  intros Hne. unfold max_axis0.
  destruct (column_max_is_max (map vx arr) (map_nonempty vx arr Hne)) as (a & -> & Ha).
  destruct (column_max_is_max (map vy arr) (map_nonempty vy arr Hne)) as (b & -> & Hb).
  destruct (column_max_is_max (map vz arr) (map_nonempty vz arr Hne)) as (c & -> & Hc).
  exists a, b, c. auto.
Qed.

(** ** The serialized document *)

Lemma create_glb_returns (float32_bytes : R -> list byte)
    (positions normals colors : list vec3) (indices : list Z) (output_path : string) :
  positions <> [] ->
  exists gltf,
    create_glb float32_bytes positions normals colors indices output_path
      = Some (output_path, gltf, (length indices / 3)%nat) /\
    binary_blob gltf =
      glb_binary_data (vec3_tobytes float32_bytes positions)
                      (vec3_tobytes float32_bytes normals)
                      (vec3_tobytes float32_bytes colors)
                      (index_tobytes (astype_uint32 indices)) /\
    bufferViews gltf =
      glb_buffer_views (vec3_tobytes float32_bytes positions)
                       (vec3_tobytes float32_bytes normals)
                       (vec3_tobytes float32_bytes colors)
                       (index_tobytes (astype_uint32 indices)) /\
    accessors gltf =
      [ {| bufferView := 0; componentType := FLOAT; count := length positions;
           type := "VEC3"; acc_min := min_axis0 positions;
           acc_max := max_axis0 positions |};
        {| bufferView := 1; componentType := FLOAT; count := length normals;
           type := "VEC3"; acc_min := None; acc_max := None |};
        {| bufferView := 2; componentType := FLOAT; count := length colors;
           type := "VEC3"; acc_min := None; acc_max := None |};
        {| bufferView := 3; componentType := UNSIGNED_INT; count := length indices;
           type := "SCALAR"; acc_min := None; acc_max := None |} ].
Proof.
  intros Hne.
  destruct (min_axis0_is_min positions Hne) as (a & b & c & Hmin & _).
  destruct (max_axis0_is_max positions Hne) as (a' & b' & c' & Hmax & _).
  unfold create_glb. rewrite Hmin, Hmax. cbv zeta.
  replace (length (astype_uint32 indices)) with (length indices)
    by (unfold astype_uint32; rewrite length_map; reflexivity).
  eexists. split; [reflexivity|].
  cbn [binary_blob bufferViews accessors]. auto.
Qed.

Lemma decode_index_tobytes (arr : list Z) :
  Forall (fun x => 0 <= x < 2 ^ 32) arr ->
  decode_uint32_array (index_tobytes arr) = Some arr.
Proof.
  induction 1 as [|x arr Hx _ IH]; [reflexivity|].
  unfold index_tobytes in *. cbn [flat_map].
  pose proof (uint32_bytes_decode x Hx) as Hd.
  unfold uint32_bytes in *. cbn [app decode_uint32_array].
  rewrite Hd, IH. reflexivity.
Qed.

Lemma Forall_astype_uint32 (arr : list Z) :
  Forall (fun x => 0 <= x < 2 ^ 32) (astype_uint32 arr).
Proof.
  unfold astype_uint32. apply Forall_map, Forall_forall. intros x _. apply u32_bounds.
Qed.

Lemma astype_uint32_id (arr : list Z) :
  Forall (fun x => 0 <= x < 2 ^ 32) arr -> astype_uint32 arr = arr.
Proof.
  intros H. unfold astype_uint32. rewrite <- (map_id arr) at 2.
  apply map_ext_in. intros x Hx. rewrite Forall_forall in H.
  apply u32_small, H, Hx.
Qed.

Lemma length_vec3_tobytes (float32_bytes : R -> list byte) (arr : list vec3) :
  (forall x, length (float32_bytes x) = 4%nat) ->
  length (vec3_tobytes float32_bytes arr) = (12 * length arr)%nat.
Proof.
  intros H4. unfold vec3_tobytes. apply length_flat_map_const.
  intros v. rewrite !length_app, !H4. reflexivity.
Qed.

Lemma float32_elements_app (w rest : list byte) :
  length w = 4%nat ->
  float32_elements (w ++ rest) =
  match float32_elements rest with
  | Some es => Some (w :: es)
  | None => None
  end.
Proof.
  intros H. destruct w as [|b0 [|b1 [|b2 [|b3 [|b4 w]]]]]; try discriminate H.
  reflexivity.
Qed.

Lemma float32_elements_tobytes (float32_bytes : R -> list byte) (arr : list vec3) :
  (forall x, length (float32_bytes x) = 4%nat) ->
  float32_elements (vec3_tobytes float32_bytes arr)
  = Some (map float32_bytes (components arr)).
Proof.
  intros H4. induction arr as [|v arr IH]; [reflexivity|].
  unfold vec3_tobytes, components in *. cbn [flat_map map app].
  rewrite <- !app_assoc.
  rewrite (float32_elements_app (float32_bytes (vx v))) by apply H4.
  rewrite (float32_elements_app (float32_bytes (vy v))) by apply H4.
  rewrite (float32_elements_app (float32_bytes (vz v))) by apply H4.
  rewrite IH. reflexivity.
Qed.

(** C7.  With every scalar stored as a 32-bit (4-byte) float, the
    serializer converts positions, normals and colors to 32-bit floats and
    indices to 32-bit unsigned integers: the bytes of each of the three
    vector arrays split into 4-byte elements that are the float encodings
    of that array's components in row-major order (12 bytes per vertex),
    and the index bytes decode, four little-endian bytes per element, to
    the indices modulo 2^32.  Each of the four byte ranges is padded
    independently with zero bytes to the next multiple of 4, and the padded
    ranges are concatenated in the order positions, normals, colors,
    indices; the four buffer views record the running sum of the preceding
    padded lengths as byte offset and the unpadded length as byte length.
    These are the blob and the views of the document the serializer
    builds, so each view of that document reads back the encodings of its
    array. *)
Theorem create_glb_layout (float32_bytes : R -> list byte)
    (positions normals colors : list vec3) (indices : list Z) (output_path : string) :
  (forall x, length (float32_bytes x) = 4%nat) ->
  let pos_bytes := vec3_tobytes float32_bytes positions in
  let norm_bytes := vec3_tobytes float32_bytes normals in
  let color_bytes := vec3_tobytes float32_bytes colors in
  let index_bytes := index_tobytes (astype_uint32 indices) in
  float32_elements pos_bytes = Some (map float32_bytes (components positions)) /\
  float32_elements norm_bytes = Some (map float32_bytes (components normals)) /\
  float32_elements color_bytes = Some (map float32_bytes (components colors)) /\
  decode_uint32_array index_bytes = Some (map (fun i => i mod 2 ^ 32) indices) /\
  map (@length byte) [pos_bytes; norm_bytes; color_bytes; index_bytes] =
    [ 12 * length positions; 12 * length normals; 12 * length colors;
      4 * length indices ]%nat /\
  glb_layout (glb_binary_data pos_bytes norm_bytes color_bytes index_bytes)
             (glb_buffer_views pos_bytes norm_bytes color_bytes index_bytes)
             pos_bytes norm_bytes color_bytes index_bytes /\
  (positions <> [] ->
   exists gltf tri_count,
     create_glb float32_bytes positions normals colors indices output_path
       = Some (output_path, gltf, tri_count) /\
     glb_layout (binary_blob gltf) (bufferViews gltf)
                pos_bytes norm_bytes color_bytes index_bytes /\
     map buffer_byteLength (buffers gltf) = [length (binary_blob gltf)] /\
     map (fun v => float32_elements (view_bytes (binary_blob gltf) v))
         (firstn 3 (bufferViews gltf)) =
       [ Some (map float32_bytes (components positions));
         Some (map float32_bytes (components normals));
         Some (map float32_bytes (components colors)) ] /\
     map (fun v => decode_uint32_array (view_bytes (binary_blob gltf) v))
         (skipn 3 (bufferViews gltf)) =
       [ Some (map (fun i => i mod 2 ^ 32) indices) ]).
Proof.
  intros H4 pos_bytes norm_bytes color_bytes index_bytes.
  assert (Ep : float32_elements pos_bytes = Some (map float32_bytes (components positions)))
    by (apply float32_elements_tobytes; exact H4).
  assert (En : float32_elements norm_bytes = Some (map float32_bytes (components normals)))
    by (apply float32_elements_tobytes; exact H4).
  assert (Ec : float32_elements color_bytes = Some (map float32_bytes (components colors)))
    by (apply float32_elements_tobytes; exact H4).
  assert (Ei : decode_uint32_array index_bytes = Some (map (fun i => i mod 2 ^ 32) indices))
    by (apply decode_index_tobytes, Forall_astype_uint32).
  split; [exact Ep|]. split; [exact En|]. split; [exact Ec|]. split; [exact Ei|].
  split.
  { cbn [map]. unfold pos_bytes, norm_bytes, color_bytes, index_bytes.
    rewrite !(length_vec3_tobytes float32_bytes _ H4), length_index_tobytes.
    unfold astype_uint32. rewrite length_map. reflexivity. }
  split; [apply glb_layout_holds|].
  intros Hne.
  destruct (create_glb_returns float32_bytes positions normals colors indices
              output_path Hne) as (gltf & Hrun & Hblob & Hviews & _).
  exists gltf, (length indices / 3)%nat. split; [exact Hrun|].
  pose proof (glb_layout_holds pos_bytes norm_bytes color_bytes index_bytes) as Hlay.
  fold pos_bytes norm_bytes color_bytes index_bytes in Hblob, Hviews.
  rewrite <- Hblob, <- Hviews in Hlay.
  split; [exact Hlay|].
  split.
  { unfold create_glb in Hrun.
    destruct (min_axis0 positions); [|discriminate Hrun].
    destruct (max_axis0 positions); [|discriminate Hrun].
    apply some_eq in Hrun.
    assert (Hg : snd (fst (output_path, gltf, (length indices / 3)%nat)) = gltf)
      by reflexivity.
    rewrite <- Hrun in Hg. cbn [fst snd] in Hg. rewrite <- Hg. reflexivity. }
  destruct Hlay as (pp & np & cp & ip & _ & _ & _ & _ & _ & _ & _ & Hread).
  rewrite Hviews in Hread |- *. unfold glb_buffer_views in Hread |- *.
  cbn [map firstn skipn] in Hread |- *.
  assert (Hrp := f_equal (fun l => nth 0 l []) Hread).
  assert (Hrn := f_equal (fun l => nth 1 l []) Hread).
  assert (Hrc := f_equal (fun l => nth 2 l []) Hread).
  assert (Hri := f_equal (fun l => nth 3 l []) Hread).
  cbn [nth] in Hrp, Hrn, Hrc, Hri.
  rewrite Hrp, Hrn, Hrc, Hri, Ep, En, Ec, Ei. split; reflexivity.
Qed.

(** C7, witness: the document built for a single box, with an encoder that
    stores 0, 1 and -1 (the components of the box normals) as their
    binary32 bytes. *)
Lemma create_glb_layout_witness :
  let m := create_box 0.28 0.18 0.10 (0.545, 0.118, 0.118)%R (0, 0, 0)%R in
  let f := fun x : R =>
             if Req_EM_T x 0 then [x00; x00; x00; x00]
             else if Rlt_dec x 0 then [x00; x00; x80; xbf]
             else [x00; x00; x80; x3f] in
  exists gltf tri_count,
    create_glb f (positions m) (normals m) (colors m) (indices m) "box.glb"
      = Some ("box.glb"%string, gltf, tri_count) /\
    glb_layout (binary_blob gltf) (bufferViews gltf)
               (vec3_tobytes f (positions m)) (vec3_tobytes f (normals m))
               (vec3_tobytes f (colors m))
               (index_tobytes (astype_uint32 (indices m))) /\
    map (fun v => float32_elements (view_bytes (binary_blob gltf) v))
        (firstn 3 (bufferViews gltf)) =
      [ Some (map f (components (positions m)));
        Some (map f (components (normals m)));
        Some (map f (components (colors m))) ] /\
    map (fun v => decode_uint32_array (view_bytes (binary_blob gltf) v))
        (skipn 3 (bufferViews gltf)) =
      [ Some (map (fun i => i mod 2 ^ 32) (indices m)) ].
Proof.
  intros m f.
  assert (Hw : forall x, length (f x) = 4%nat).
  { intros x. unfold f. destruct (Req_EM_T x 0); [reflexivity|].
    destruct (Rlt_dec x 0); reflexivity. }
  destruct (create_glb_layout f (positions m) (normals m) (colors m) (indices m)
              "box.glb"%string Hw)
    as (_ & _ & _ & _ & _ & _ & Hsaved).
  destruct Hsaved as (gltf & tri & Hrun & Hlay & _ & Hfloat & Hidx).
  - unfold m, create_box. cbn [positions]. discriminate.
  - exists gltf, tri. split; [exact Hrun|]. split; [exact Hlay|].
    split; [exact Hfloat | exact Hidx].
Defined.

Ltac find_in := first [left; lra | right; find_in].

Lemma create_box_bounds (w h d : R) (color : vec3) (ox oy oz : R) :
  (0 <= w)%R -> (0 <= h)%R -> (0 <= d)%R ->
  let p := positions (create_box w h d color (ox, oy, oz)) in
  min_axis0 p = Some [ox - w / 2; oy - h / 2; oz - d / 2]%R /\
  max_axis0 p = Some [ox + w / 2; oy + h / 2; oz + d / 2]%R.
Proof.
  intros Hw Hh Hd p.
  assert (Hne : p <> []) by (unfold p, create_box; cbn [positions]; discriminate).
  destruct (min_axis0_is_min p Hne) as (a & b & c & -> & Ha & Hb & Hc).
  destruct (max_axis0_is_max p Hne) as (a' & b' & c' & -> & Ha' & Hb' & Hc').
  split; do 2 f_equal; [|f_equal| |f_equal]; [| |f_equal| | |f_equal].
  - apply (is_min_of_unique (map vx p)); [exact Ha|].
    unfold p, create_box; cbn [positions map vx vy vz fst snd].
    split; [find_in | each_element; lra].
  - apply (is_min_of_unique (map vy p)); [exact Hb|].
    unfold p, create_box; cbn [positions map vx vy vz fst snd].
    split; [find_in | each_element; lra].
  - apply (is_min_of_unique (map vz p)); [exact Hc|].
    unfold p, create_box; cbn [positions map vx vy vz fst snd].
    split; [find_in | each_element; lra].
  - apply (is_max_of_unique (map vx p)); [exact Ha'|].
    unfold p, create_box; cbn [positions map vx vy vz fst snd].
    split; [find_in | each_element; lra].
  - apply (is_max_of_unique (map vy p)); [exact Hb'|].
    unfold p, create_box; cbn [positions map vx vy vz fst snd].
    split; [find_in | each_element; lra].
  - apply (is_max_of_unique (map vz p)); [exact Hc'|].
    unfold p, create_box; cbn [positions map vx vy vz fst snd].
    split; [find_in | each_element; lra].
Qed.

(** C8.  For every non-empty compound mesh serialized by [create_glb], the
    position accessor's recorded [min] and [max] are the exact
    componentwise minimum and maximum of the position values (each recorded
    bound is attained by some vertex and bounds all of them); in
    particular, serializing the single primitive
    [Box(0.28, 0.18, 0.10, color=(0.545,0.118,0.118), origin=(0,0,0))]
    yields 24 vertices, 12 triangles and the bounding box
    [min=(-0.14,-0.09,-0.05)], [max=(0.14,0.09,0.05)]. *)
Theorem create_glb_bounding_box :
  (forall (float32_bytes : R -> list byte) (positions normals colors : list vec3)
          (indices : list Z) (output_path : string),
     positions <> [] ->
     exists gltf tri_count pos_accessor lx ly lz hx hy hz,
       create_glb float32_bytes positions normals colors indices output_path
         = Some (output_path, gltf, tri_count) /\
       nth_error (accessors gltf) 0 = Some pos_accessor /\
       count pos_accessor = length positions /\
       acc_min pos_accessor = Some [lx; ly; lz] /\
       acc_max pos_accessor = Some [hx; hy; hz] /\
       is_min_of (map vx positions) lx /\ is_max_of (map vx positions) hx /\
       is_min_of (map vy positions) ly /\ is_max_of (map vy positions) hy /\
       is_min_of (map vz positions) lz /\ is_max_of (map vz positions) hz) /\
  (forall (float32_bytes : R -> list byte) (output_path : string),
     let m := create_box 0.28 0.18 0.10 (0.545, 0.118, 0.118)%R (0, 0, 0)%R in
     exists gltf pos_accessor,
       create_glb float32_bytes (positions m) (normals m) (colors m) (indices m)
                  output_path
         = Some (output_path, gltf, 12%nat) /\
       nth_error (accessors gltf) 0 = Some pos_accessor /\
       count pos_accessor = 24%nat /\
       acc_min pos_accessor = Some [-0.14; -0.09; -0.05]%R /\
       acc_max pos_accessor = Some [0.14; 0.09; 0.05]%R).
Proof.
  split.
  - intros f positions normals colors indices output_path Hne.
    destruct (create_glb_returns f positions normals colors indices output_path Hne)
      as (gltf & Hrun & _ & _ & Hacc).
    destruct (min_axis0_is_min positions Hne) as (lx & ly & lz & Hmin & Hlx & Hly & Hlz).
    destruct (max_axis0_is_max positions Hne) as (hx & hy & hz & Hmax & Hhx & Hhy & Hhz).
    eexists gltf, _, _, lx, ly, lz, hx, hy, hz.
    split; [exact Hrun|]. rewrite Hacc. cbn [nth_error].
    split; [reflexivity|]. cbn [count acc_min acc_max].
    split; [reflexivity|]. split; [exact Hmin|]. split; [exact Hmax|].
    repeat (split; [assumption|]). assumption.
  - intros f output_path m.
    assert (Hne : positions m <> [])
      by (unfold m, create_box; cbn [positions]; discriminate).
    destruct (create_glb_returns f (positions m) (normals m) (colors m) (indices m)
                output_path Hne) as (gltf & Hrun & _ & _ & Hacc).
    destruct (create_box_bounds 0.28 0.18 0.10 (0.545, 0.118, 0.118)%R 0 0 0)
      as [Hmin Hmax]; try lra.
    fold m in Hmin, Hmax.
    eexists gltf, _. split; [exact Hrun|]. rewrite Hacc. cbn [nth_error].
    split; [reflexivity|]. cbn [count acc_min acc_max].
    split; [reflexivity|]. rewrite Hmin, Hmax.
    split; do 2 f_equal; try lra; f_equal; try lra; f_equal; lra.
Qed.

(** C8, witness: the recorded bounds of a serialized one-triangle mesh. *)
Lemma create_glb_bounding_box_witness :
  let tri := [(0, 0, 0); (1, 0, 0); (0, 1, 0)]%R in
  let f := fun _ : R => [x00; x00; x80; x3f] in
  exists gltf tri_count pos_accessor lx ly lz hx hy hz,
    create_glb f tri tri tri [0; 1; 2] "tri.glb" = Some ("tri.glb"%string, gltf, tri_count) /\
    nth_error (accessors gltf) 0 = Some pos_accessor /\
    count pos_accessor = 3%nat /\
    acc_min pos_accessor = Some [lx; ly; lz] /\
    acc_max pos_accessor = Some [hx; hy; hz] /\
    is_min_of (map vx tri) lx /\ is_max_of (map vx tri) hx /\
    is_min_of (map vy tri) ly /\ is_max_of (map vy tri) hy /\
    is_min_of (map vz tri) lz /\ is_max_of (map vz tri) hz.
Proof.
  intros tri f.
  apply (proj1 create_glb_bounding_box f tri tri tri [0; 1; 2] "tri.glb"%string).
  discriminate.
Defined.

(** ** Normals *)

Lemma norm_axis_zero : norm (0, 0, 0)%R = 0%R.
Proof.
  unfold norm; cbn [vx vy vz fst snd].
  replace (0 * 0 + 0 * 0 + 0 * 0)%R with 0%R by lra. apply sqrt_0.
Qed.

Lemma not_unit_within (tol : R) (v : vec3) :
  (0 <= norm v)%R -> (norm v + tol < 1)%R -> ~ unit_within tol v.
Proof.
  intros H0 Hlt. unfold unit_within, Rabs.
  destruct (Rcase_abs (norm v - 1)); lra.
Qed.

Lemma half_angle_start (half_segments : nat) :
  half_angle 0 half_segments = (- (PI / 2))%R.
Proof. unfold half_angle. cbn [INR]. lra. Qed.

(** C3, evaluated at the failing inputs.  The first vertex normal of the
    half-cylinder built by [create_medkit] for the left rounded edge is
    [(cos(-pi/2), 0, 0)], of length 0; the apex normal of the cone of
    radius 3 and height 4 is [(0, 1/normal_len, 0)], of length 4/5.
    Neither is a unit vector within 1e-5. *)
Theorem normals_not_unit :
  (exists m n,
     create_half_cylinder 0.018 0.08 8 (0.58, 0.12, 0.10)%R (-0.052, 0, 0)%R "z" = Some m /\
     nth_error (normals m) 0 = Some n /\
     norm n = 0%R /\ ~ unit_within (1 / 100000) n) /\
  (exists m n,
     create_cone 3 4 3 (0.5, 0.5, 0.5)%R (0, 0, 0)%R = Some m /\
     nth_error (normals m) 0 = Some n /\
     norm n = (4 / 5)%R /\ ~ unit_within (1 / 100000) n).
Proof.
  split.
  - unfold create_half_cylinder. change (8 / 2)%nat with 4%nat.
    change ((4 =? 0)%nat) with false. change (String.eqb "z" "x") with false.
    cbv iota. eexists. eexists. split; [reflexivity|].
    change (range (4 + 1)) with [0; 1; 2; 3; 4]%nat.
    cbn [normals flat_map app nth_error]. split; [reflexivity|].
    rewrite half_angle_start, cos_neg, cos_PI2.
    split; [apply norm_axis_zero|].
    apply not_unit_within; rewrite norm_axis_zero; lra.
  - unfold create_cone. destruct (Req_EM_T 4 0) as [H|_]; [lra|].
    eexists. eexists. split; [reflexivity|].
    cbn [normals nth_error]. split; [reflexivity|].
    assert (Hlen : sqrt (1 + 3 / 4 * (3 / 4)) = (5 / 4)%R).
    { replace (1 + 3 / 4 * (3 / 4))%R with (5 / 4 * (5 / 4))%R by lra.
      apply sqrt_square. lra. }
    assert (Hnorm : norm (0, 1 / sqrt (1 + 3 / 4 * (3 / 4)), 0)%R = (4 / 5)%R).
    { unfold norm; cbn [vx vy vz fst snd]. rewrite Hlen.
      replace (0 * 0 + 1 / (5 / 4) * (1 / (5 / 4)) + 0 * 0)%R
        with (4 / 5 * (4 / 5))%R by lra.
      apply sqrt_square. lra. }
    split; [exact Hnorm|].
    apply not_unit_within; rewrite Hnorm; lra.
Qed.

Lemma norm_radial (a : R) : norm (cos a, 0, sin a)%R = 1%R.
Proof.
  unfold norm; cbn [vx vy vz fst snd].
  pose proof (sin2_cos2 a) as H. unfold Rsqr in H.
  replace (cos a * cos a + 0 * 0 + sin a * sin a)%R with 1%R by lra.
  apply sqrt_1.
Qed.

Lemma norm_up : norm (0, 1, 0)%R = 1%R.
Proof.
  unfold norm; cbn [vx vy vz fst snd].
  replace (0 * 0 + 1 * 1 + 0 * 0)%R with 1%R by lra. apply sqrt_1.
Qed.

Lemma norm_down : norm (0, -1, 0)%R = 1%R.
Proof.
  unfold norm; cbn [vx vy vz fst snd].
  replace (0 * 0 + -1 * -1 + 0 * 0)%R with 1%R by lra. apply sqrt_1.
Qed.

Lemma norm_torus (p t : R) : norm (cos p * cos t, sin p, cos p * sin t)%R = 1%R.
Proof.
  unfold norm; cbn [vx vy vz fst snd].
  pose proof (sin2_cos2 p) as Hp. pose proof (sin2_cos2 t) as Ht. unfold Rsqr in *.
  replace (cos p * cos t * (cos p * cos t) + sin p * sin p + cos p * sin t * (cos p * sin t))%R
    with (cos p * cos p * (sin t * sin t + cos t * cos t) + sin p * sin p)%R by ring.
  rewrite Ht. replace (cos p * cos p * 1 + sin p * sin p)%R with 1%R by lra.
  apply sqrt_1.
Qed.

Lemma norm_cone_ring (a slope : R) :
  let normal_len := sqrt (1 + slope * slope) in
  norm (cos a / normal_len, slope / normal_len, sin a / normal_len)%R = 1%R.
Proof.
  intros normal_len.
  assert (Hpos : (0 < 1 + slope * slope)%R) by nra.
  assert (Hsq : (normal_len * normal_len = 1 + slope * slope)%R)
    by (apply sqrt_sqrt; lra).
  assert (Hnz : normal_len <> 0%R).
  { intros H0. rewrite H0 in Hsq. lra. }
  unfold norm; cbn [vx vy vz fst snd].
  pose proof (sin2_cos2 a) as Ha. unfold Rsqr in Ha.
  replace (cos a / normal_len * (cos a / normal_len) +
           slope / normal_len * (slope / normal_len) +
           sin a / normal_len * (sin a / normal_len))%R
    with ((sin a * sin a + cos a * cos a + slope * slope) / (normal_len * normal_len))%R
    by (field; exact Hnz).
  rewrite Ha, Hsq. replace ((1 + slope * slope) / (1 + slope * slope))%R with 1%R
    by (field; lra).
  apply sqrt_1.
Qed.

Lemma Forall_map_range {B : Type} (P : B -> Prop) (f : nat -> B) (n : nat) :
  (forall i, P (f i)) -> Forall P (map f (range n)).
Proof. intros H. apply Forall_map, Forall_forall. intros i _. apply H. Qed.

(** The builders other than the half-cylinder and the cone apex do emit
    unit normals. *)
Lemma create_box_normals_unit w h d color origin :
  Forall (fun n => norm n = 1%R) (normals (create_box w h d color origin)).
Proof.
  destruct origin as [[ox oy] oz]. unfold create_box; cbn [normals].
  each_element; unfold norm; cbn [vx vy vz fst snd];
    match goal with
    | |- sqrt ?e = _ => replace e with 1%R by lra; apply sqrt_1
    end.
Qed.

Lemma create_cylinder_normals_unit radius height segments color origin top_radius :
  Forall (fun n => norm n = 1%R)
         (normals (create_cylinder radius height segments color origin top_radius)).
Proof.
  destruct origin as [[ox oy] oz]. unfold create_cylinder; cbn [normals].
  repeat rewrite Forall_app. repeat split.
  - apply Forall_loop. intros i _. each_element; apply norm_radial.
  - apply Forall_cons; [apply norm_up|]. apply Forall_map_range. intros _. apply norm_up.
  - apply Forall_cons; [apply norm_down|]. apply Forall_map_range. intros _. apply norm_down.
Qed.

Lemma create_torus_normals_unit outer_r inner_r segments rings color origin :
  Forall (fun n => norm n = 1%R)
         (normals (create_torus outer_r inner_r segments rings color origin)).
Proof.
  destruct origin as [[ox oy] oz]. unfold create_torus; cbn [normals].
  apply Forall_loop. intros i _. apply Forall_map_range. intros j. apply norm_torus.
Qed.

Lemma create_cone_normals_unit_but_apex radius height segments color origin m :
  create_cone radius height segments color origin = Some m ->
  Forall (fun n => norm n = 1%R) (tl (normals m)).
Proof.
  destruct origin as [[ox oy] oz]. unfold create_cone.
  destruct (Req_EM_T height 0); [discriminate|].
  intros H; apply some_eq in H; subst m. cbn [normals app tl].
  apply Forall_app. split.
  - apply Forall_map_range. intros i. apply norm_cone_ring.
  - apply Forall_cons; [apply norm_down|]. apply Forall_map_range. intros _. apply norm_down.
Qed.

(** ** Half-cylinder geometry *)

(** What the cylinder's ring construction gives: a ring vertex lies at
    distance [radius] from the height axis. *)
Lemma axis_distance_ring (ox oy oz y radius a : R) :
  (0 <= radius)%R ->
  axis_distance (ox, oy, oz) (ox + radius * cos a, y, oz + radius * sin a)%R = radius.
Proof.
  intros Hr. unfold axis_distance; cbn [vx vy vz fst snd].
  pose proof (sin2_cos2 a) as Ha. unfold Rsqr in Ha.
  replace ((ox + radius * cos a - ox) * (ox + radius * cos a - ox) +
           (oz + radius * sin a - oz) * (oz + radius * sin a - oz))%R
    with (radius * radius * (sin a * sin a + cos a * cos a))%R by ring.
  rewrite Ha, Rmult_1_r. apply sqrt_square. exact Hr.
Qed.

Lemma create_cylinder_bottom_ring_on_circle radius height segments color ox oy oz top_radius :
  (0 <= radius)%R ->
  Forall (fun p => axis_distance (ox, oy, oz) p = radius)
         (skipn (3 * segments + 2)
                (positions (create_cylinder radius height segments color (ox, oy, oz)
                                            top_radius))).
Proof.
  intros Hr. unfold create_cylinder; cbn [positions].
  rewrite app_assoc.
  match goal with
  | |- Forall _ (skipn _ ((?a ++ ?b) ++ ?c :: ?d)) =>
      replace (3 * segments + 2)%nat with (length ((a ++ b) ++ [c]) + 0)%nat;
      [ replace ((a ++ b) ++ c :: d) with (((a ++ b) ++ [c]) ++ d)
          by (rewrite <- (app_assoc (a ++ b) [c] d); reflexivity);
        rewrite skipn_prefix
      | count_lengths; lia ]
  end.
  cbn [skipn]. apply Forall_map_range. intros i. apply axis_distance_ring. exact Hr.
Qed.

Lemma axis_distance_origin (o : vec3) : axis_distance o o = 0%R.
Proof.
  unfold axis_distance.
  replace ((vx o - vx o) * (vx o - vx o) + (vz o - vz o) * (vz o - vz o))%R
    with 0%R by ring.
  apply sqrt_0.
Qed.

(** C5, evaluated at the failing inputs.  The half-cylinder built by
    [create_medkit] for the left rounded edge (radius 0.018) starts with a
    vertex on the height axis itself, at distance 0 from it; with
    [axis='x'] the middle vertex of the strip is on the axis.  The emitted
    positions vary along one coordinate only, so they are not the
    cylinder's ring restricted to half a turn. *)
Theorem half_cylinder_off_circle :
  let c := (0.58, 0.12, 0.10)%R in
  let o := (-0.052, 0, 0)%R in
  (exists m p,
     create_half_cylinder 0.018 0.08 8 c o "z" = Some m /\
     nth_error (positions m) 0 = Some p /\
     axis_distance o p = 0%R /\
     (1 / 100000 < Rabs (axis_distance o p - 0.018))%R) /\
  (exists m p,
     create_half_cylinder 0.018 0.08 8 c o "x" = Some m /\
     nth_error (positions m) 4 = Some p /\
     axis_distance o p = 0%R /\
     (1 / 100000 < Rabs (axis_distance o p - 0.018))%R).
Proof.
  intros c o.
  assert (Hfar : (1 / 100000 < Rabs (0 - 0.018))%R).
  { unfold Rabs. destruct (Rcase_abs (0 - 0.018)); lra. }
  split.
  - unfold create_half_cylinder, o. change (8 / 2)%nat with 4%nat.
    change ((4 =? 0)%nat) with false. change (String.eqb "z" "x") with false.
    cbv iota. eexists. eexists. split; [reflexivity|].
    change (range (4 + 1)) with [0; 1; 2; 3; 4]%nat.
    cbn [positions flat_map app nth_error]. split; [reflexivity|].
    rewrite half_angle_start, cos_neg, cos_PI2.
    replace (-0.052 + 0.018 * 0)%R with (-0.052)%R by lra.
    rewrite (axis_distance_origin (-0.052, 0, 0)%R). split; [reflexivity | exact Hfar].
  - unfold create_half_cylinder, o. change (8 / 2)%nat with 4%nat.
    change ((4 =? 0)%nat) with false. change (String.eqb "x" "x") with true.
    cbv iota. eexists. eexists. split; [reflexivity|].
    change (range (4 + 1)) with [0; 1; 2; 3; 4]%nat.
    cbn [positions flat_map app nth_error]. split; [reflexivity|].
    replace (half_angle 2 4) with 0%R by (unfold half_angle; cbn [INR]; lra).
    rewrite sin_0. replace (0 + 0.018 * 0)%R with 0%R by lra.
    rewrite (axis_distance_origin (-0.052, 0, 0)%R). split; [reflexivity | exact Hfar].
Qed.

(** ** Concrete runs *)

Example cylinder3_indices :
  indices (create_cylinder 1 2 3 (1, 0, 0)%R (0, 0, 0)%R None) =
  [ 0; 2; 1; 1; 2; 3;  2; 4; 3; 3; 4; 5;  4; 0; 5; 5; 0; 1;
    6; 7; 8;  6; 8; 9;  6; 9; 7;
    10; 12; 11;  10; 13; 12;  10; 11; 13 ].
Proof. reflexivity. Qed.

Example half_cylinder4_indices :
  option_map indices (create_half_cylinder 1 1 4 (1, 0, 0)%R (0, 0, 0)%R "x") =
  Some [0; 2; 1; 1; 2; 3;  2; 4; 3; 3; 4; 5].
Proof. reflexivity. Qed.

Example half_cylinder1_raises :
  create_half_cylinder 1 1 1 (1, 0, 0)%R (0, 0, 0)%R "x" = None.
Proof. reflexivity. Qed.

Example torus_2x2_indices :
  indices (create_torus 2 1 2 2 (1, 0, 0)%R (0, 0, 0)%R) =
  [ 0; 2; 1; 2; 3; 1;  1; 3; 0; 3; 2; 0;
    2; 0; 3; 0; 1; 3;  3; 1; 2; 1; 0; 2 ].
Proof. reflexivity. Qed.

Example merge_two_boxes :
  option_map (fun r => (length (positions r), firstn 6 (skipn 36 (indices r))))
    (merge_meshes [create_box 1 1 1 (1, 0, 0)%R (0, 0, 0)%R;
                   create_box 2 2 2 (0, 1, 0)%R (5, 0, 0)%R]) =
  Some (48%nat, [24; 25; 26; 24; 26; 27]).
Proof. reflexivity. Qed.

Example box_invariant_checked :
  primitive_okb (create_box 1 1 1 (1, 0, 0)%R (0, 0, 0)%R) = true.
Proof. reflexivity. Qed.

Example pad_to_4_five : pad_to_4 [x01; x02; x03; x04; x05] = [x01; x02; x03; x04; x05; x00; x00; x00].
Proof. reflexivity. Qed.

Example uint32_bytes_258 : uint32_bytes 258 = [x02; x01; x00; x00].
Proof. reflexivity. Qed.

Example triangles_seven : triangles [0; 1; 2; 0; 2; 3; 9] = [(0, 1, 2); (0, 2, 3)].
Proof. reflexivity. Qed.

Lemma create_box_counts w h d color origin :
  let m := create_box w h d color origin in
  length (positions m) = 24%nat /\ length (indices m) = 36%nat /\
  length (triangles (indices m)) = 12%nat.
Proof. destruct origin as [[ox oy] oz]. repeat split. Qed.

Lemma create_glb_empty_raises (float32_bytes : R -> list byte)
    (normals colors : list vec3) (indices : list Z) (output_path : string) :
  create_glb float32_bytes [] normals colors indices output_path = None.
Proof. reflexivity. Qed.

(** * Further properties of the builders *)

(** X1.  For non-negative dimensions a box has 24 vertices and 36 indices
    and its vertices span exactly the axis-aligned box centred at [origin]:
    the componentwise minimum and maximum of its positions are
    [origin - (w/2, h/2, d/2)] and [origin + (w/2, h/2, d/2)]. *)
Theorem create_box_extent (w h d : R) (color : vec3) (ox oy oz : R) :
  (0 <= w)%R -> (0 <= h)%R -> (0 <= d)%R ->
  let m := create_box w h d color (ox, oy, oz) in
  length (positions m) = 24%nat /\
  length (indices m) = 36%nat /\
  min_axis0 (positions m) = Some [ox - w / 2; oy - h / 2; oz - d / 2]%R /\
  max_axis0 (positions m) = Some [ox + w / 2; oy + h / 2; oz + d / 2]%R.
Proof.
  intros Hw Hh Hd m.
  destruct (create_box_bounds w h d color ox oy oz Hw Hh Hd) as [Hmin Hmax].
  repeat split; assumption.
Qed.

Lemma create_box_extent_witness :
  let m := create_box 0.13 0.085 0.085 (0.55, 0.12, 0.1)%R (0, 0.0425, 0)%R in
  length (positions m) = 24%nat /\
  length (indices m) = 36%nat /\
  min_axis0 (positions m) = Some [0 - 0.13 / 2; 0.0425 - 0.085 / 2; 0 - 0.085 / 2]%R /\
  max_axis0 (positions m) = Some [0 + 0.13 / 2; 0.0425 + 0.085 / 2; 0 + 0.085 / 2]%R.
Proof.
  apply (create_box_extent 0.13 0.085 0.085 (0.55, 0.12, 0.1)%R 0 0.0425 0); lra.
Defined.

Lemma Forall_repeat {A : Type} (P : A -> Prop) (x : A) (n : nat) :
  P x -> Forall P (repeat x n).
Proof. intros H. induction n; cbn; constructor; assumption. Qed.

(** X2.  The color is a per-call constant: every vertex color a builder
    emits is the [color] argument. *)
Theorem builders_uniform_color (color : vec3) :
  (forall w h d origin,
     Forall (fun c => c = color) (colors (create_box w h d color origin))) /\
  (forall radius height segments origin top_radius,
     Forall (fun c => c = color)
            (colors (create_cylinder radius height segments color origin top_radius))) /\
  (forall radius height segments origin m,
     create_cone radius height segments color origin = Some m ->
     Forall (fun c => c = color) (colors m)) /\
  (forall outer_r inner_r segments rings origin,
     Forall (fun c => c = color)
            (colors (create_torus outer_r inner_r segments rings color origin))) /\
  (forall radius height segments origin axis m,
     create_half_cylinder radius height segments color origin axis = Some m ->
     Forall (fun c => c = color) (colors m)).
Proof.
  refine (conj _ (conj _ (conj _ (conj _ _)))).
  - intros w h d [[ox oy] oz]. unfold create_box; cbn [colors].
    apply Forall_repeat. reflexivity.
  - intros radius height segments [[ox oy] oz] top_radius.
    unfold create_cylinder; cbn [colors].
    repeat rewrite Forall_app. repeat split.
    + apply Forall_loop. intros i _. each_element; reflexivity.
    + apply Forall_cons; [reflexivity|]. apply Forall_map_range. reflexivity.
    + apply Forall_cons; [reflexivity|]. apply Forall_map_range. reflexivity.
  - intros radius height segments [[ox oy] oz] m. unfold create_cone.
    destruct (Req_EM_T height 0); [discriminate|].
    intros H; apply some_eq in H; subst m. cbn [colors].
    apply Forall_cons; [reflexivity|]. apply Forall_app. split.
    + apply Forall_map_range. reflexivity.
    + apply Forall_cons; [reflexivity|]. apply Forall_map_range. reflexivity.
  - intros outer_r inner_r segments rings [[ox oy] oz].
    unfold create_torus; cbn [colors].
    apply Forall_loop. intros i _. apply Forall_map_range. reflexivity.
  - intros radius height segments [[ox oy] oz] axis m. unfold create_half_cylinder.
    destruct (segments / 2 =? 0)%nat; [discriminate|].
    destruct (String.eqb axis "x"); intros H; apply some_eq in H; subst m;
      cbn [colors]; apply Forall_flat_map, Forall_forall; intros i _;
      each_element; reflexivity.
Qed.

Lemma builders_uniform_color_witness :
  let color := (0.58, 0.12, 0.10)%R in
  exists m,
    create_half_cylinder 0.018 0.08 8 color (-0.052, 0, 0)%R "z" = Some m /\
    Forall (fun c => c = color) (colors m).
Proof.
  intros color.
  destruct (create_half_cylinder_returns 0.018 0.08 8 color (-0.052, 0, 0)%R "z")
    as [m Hm]; [lia|].
  exists m. split; [exact Hm|].
  exact (proj2 (proj2 (proj2 (proj2 (builders_uniform_color color)))) _ _ _ _ _ _ Hm).
Defined.

(** X3.  Box, cylinder and torus normals, and every cone normal except the
    apex normal, are unit vectors (exactly, over the reals). *)
Theorem analytic_normals_unit :
  (forall w h d color origin,
     Forall (fun n => norm n = 1%R) (normals (create_box w h d color origin))) /\
  (forall radius height segments color origin top_radius,
     Forall (fun n => norm n = 1%R)
            (normals (create_cylinder radius height segments color origin top_radius))) /\
  (forall outer_r inner_r segments rings color origin,
     Forall (fun n => norm n = 1%R)
            (normals (create_torus outer_r inner_r segments rings color origin))) /\
  (forall radius height segments color origin m,
     create_cone radius height segments color origin = Some m ->
     Forall (fun n => norm n = 1%R) (tl (normals m))).
Proof.
  refine (conj _ (conj _ (conj _ _))); intros.
  - apply create_box_normals_unit.
  - apply create_cylinder_normals_unit.
  - apply create_torus_normals_unit.
  - eapply create_cone_normals_unit_but_apex; eassumption.
Qed.

Lemma analytic_normals_unit_witness :
  exists m,
    create_cone 0.035 0.04 8 (0.5, 0.5, 0.5)%R (0, 0, 0)%R = Some m /\
    Forall (fun n => norm n = 1%R) (tl (normals m)).
Proof.
  destruct (create_cone_returns 0.035 0.04 8 (0.5, 0.5, 0.5)%R (0, 0, 0)%R)
    as [m Hm]; [lra|].
  exists m. split; [exact Hm|].
  exact (proj2 (proj2 (proj2 analytic_normals_unit)) _ _ _ _ _ _ Hm).
Defined.

(** X4.  Every cylinder vertex lies on the frustum the parameters
    describe: it is either at height [oy] on the circle of radius [radius]
    around the axis (or the bottom cap centre on the axis), or at height
    [oy + height] on the circle of radius [top_radius] (or the top cap
    centre); [top_radius] defaults to [radius]. *)
Theorem create_cylinder_on_frustum (radius height : R) (segments : nat)
    (color : vec3) (ox oy oz : R) (top_radius : option R) :
  let top := match top_radius with None => radius | Some t => t end in
  (0 <= radius)%R -> (0 <= top)%R ->
  Forall (fun p =>
            (vy p = oy /\
             (axis_distance (ox, oy, oz) p = radius \/ p = (ox, oy, oz))) \/
            (vy p = (oy + height)%R /\
             (axis_distance (ox, oy, oz) p = top \/ p = (ox, oy + height, oz)%R)))
         (positions (create_cylinder radius height segments color (ox, oy, oz) top_radius)).
Proof.
  intros top Hr Ht. unfold create_cylinder; fold top; cbn [positions].
  repeat rewrite Forall_app. repeat split.
  - apply Forall_loop. intros i _. each_element.
    + left. split; [reflexivity|]. left. apply axis_distance_ring. exact Hr.
    + right. split; [reflexivity|]. left. apply axis_distance_ring. exact Ht.
  - apply Forall_cons.
    + right. split; [reflexivity|]. right. reflexivity.
    + apply Forall_map_range. intros i. right. split; [reflexivity|]. left.
      apply axis_distance_ring. exact Ht.
  - apply Forall_cons.
    + left. split; [reflexivity|]. right. reflexivity.
    + apply Forall_map_range. intros i. left. split; [reflexivity|]. left.
      apply axis_distance_ring. exact Hr.
Qed.

Lemma create_cylinder_on_frustum_witness :
  Forall (fun p =>
            (vy p = 0.135%R /\
             (axis_distance (0, 0.135, 0)%R p = 0.014%R \/ p = (0, 0.135, 0)%R)) \/
            (vy p = (0.135 + 0.12)%R /\
             (axis_distance (0, 0.135, 0)%R p = 0.014%R \/
              p = (0, 0.135 + 0.12, 0)%R)))
         (positions (create_cylinder 0.014 0.12 8 (0.15, 0.15, 0.15)%R
                                     (0, 0.135, 0)%R None)).
Proof.
  apply (create_cylinder_on_frustum 0.014 0.12 8 (0.15, 0.15, 0.15)%R 0 0.135 0 None);
    cbv zeta; lra.
Defined.

(** X5.  Every torus vertex lies on the torus of major radius
    [outer_r - inner_r] and minor radius [inner_r] around the vertical axis
    through [origin]: with [(X, Y, Z)] the position relative to the origin,
    [(X^2 + Y^2 + Z^2 + R^2 - r^2)^2 = 4 R^2 (X^2 + Z^2)]; and the torus
    has [rings * segments] vertices and [6 * rings * segments] indices. *)
Theorem create_torus_on_surface (outer_r inner_r : R) (segments rings : nat)
    (color : vec3) (ox oy oz : R) :
  let m := create_torus outer_r inner_r segments rings color (ox, oy, oz) in
  let major := (outer_r - inner_r)%R in
  Forall (fun p =>
            let X := (vx p - ox)%R in
            let Y := (vy p - oy)%R in
            let Z := (vz p - oz)%R in
            ((X * X + Y * Y + Z * Z + major * major - inner_r * inner_r) *
             (X * X + Y * Y + Z * Z + major * major - inner_r * inner_r)
             = 4 * (major * major) * (X * X + Z * Z))%R)
         (positions m) /\
  length (positions m) = (rings * segments)%nat /\
  length (indices m) = (6 * (rings * segments))%nat.
Proof.
  intros m major. split.
  - unfold m, create_torus; cbn [positions]. fold major.
    apply Forall_loop. intros i _. apply Forall_map_range. intros j.
    cbn [vx vy vz fst snd]. cbv zeta.
    set (ct := cos (full_angle i rings)). set (st := sin (full_angle i rings)).
    set (cp := cos (full_angle j segments)). set (sp := sin (full_angle j segments)).
    assert (Ht : (st * st = 1 - ct * ct)%R).
    { pose proof (sin2_cos2 (full_angle i rings)) as H. unfold Rsqr in H.
      fold ct st in H. lra. }
    assert (Hp : (sp * sp = 1 - cp * cp)%R).
    { pose proof (sin2_cos2 (full_angle j segments)) as H. unfold Rsqr in H.
      fold cp sp in H. lra. }
    assert (Hxz : ((ox + major * ct + inner_r * cp * ct - ox) *
                   (ox + major * ct + inner_r * cp * ct - ox) +
                   (oz + major * st + inner_r * cp * st - oz) *
                   (oz + major * st + inner_r * cp * st - oz)
                   = (major + inner_r * cp) * (major + inner_r * cp))%R).
    { replace ((ox + major * ct + inner_r * cp * ct - ox) *
               (ox + major * ct + inner_r * cp * ct - ox) +
               (oz + major * st + inner_r * cp * st - oz) *
               (oz + major * st + inner_r * cp * st - oz))%R
        with ((major + inner_r * cp) * (major + inner_r * cp) * (ct * ct + st * st))%R
        by ring.
      rewrite Ht. ring. }
    replace ((ox + major * ct + inner_r * cp * ct - ox) *
             (ox + major * ct + inner_r * cp * ct - ox) +
             (oy + inner_r * sp - oy) * (oy + inner_r * sp - oy) +
             (oz + major * st + inner_r * cp * st - oz) *
             (oz + major * st + inner_r * cp * st - oz))%R
      with ((major + inner_r * cp) * (major + inner_r * cp)
            + inner_r * inner_r * (sp * sp))%R
      by (rewrite <- Hxz; ring).
    rewrite Hxz, Hp. ring.
  - pose proof (create_torus_counts outer_r inner_r segments rings color (ox, oy, oz))
      as (Hp & _ & _ & Hi).
    split; assumption.
Qed.

(** X6.  [create_cone] raises exactly when [height] is zero (the division
    [radius / height]); otherwise it returns [2N + 2] vertices and [6N]
    indices. *)
Theorem create_cone_size (radius height : R) (segments : nat) (color origin : vec3) :
  (height = 0%R -> create_cone radius height segments color origin = None) /\
  (height <> 0%R ->
   exists m, create_cone radius height segments color origin = Some m /\
             length (positions m) = (2 * segments + 2)%nat /\
             length (indices m) = (6 * segments)%nat).
Proof.
  split.
  - intros H0. destruct origin as [[ox oy] oz]. unfold create_cone.
    destruct (Req_EM_T height 0); [reflexivity | contradiction].
  - intros Hnz.
    destruct (create_cone_returns radius height segments color origin Hnz) as [m Hm].
    exists m. split; [exact Hm|].
    pose proof (create_cone_counts _ _ _ _ _ _ Hm) as (Hp & _ & _ & Hi).
    split; assumption.
Qed.

Lemma create_cone_size_witness :
  create_cone 0.035 0 8 (0.5, 0.5, 0.5)%R (0, 0, 0)%R = None /\
  exists m, create_cone 0.035 0.04 8 (0.5, 0.5, 0.5)%R (0, 0, 0)%R = Some m /\
            length (positions m) = 18%nat /\ length (indices m) = 48%nat.
Proof.
  split.
  - apply (proj1 (create_cone_size 0.035 0 8 (0.5, 0.5, 0.5)%R (0, 0, 0)%R)).
    reflexivity.
  - apply (proj2 (create_cone_size 0.035 0.04 8 (0.5, 0.5, 0.5)%R (0, 0, 0)%R)). lra.
Defined.

(** X7.  [create_half_cylinder] raises exactly when [segments] is 0 or 1
    (its first loop divides by [segments // 2]). *)
Theorem create_half_cylinder_raises_iff (radius height : R) (segments : nat)
    (color origin : vec3) (axis : string) :
  create_half_cylinder radius height segments color origin axis = None
  <-> (segments < 2)%nat.
Proof.
  split.
  - intros Hnone. destruct (Nat.lt_ge_cases segments 2) as [Hlt|Hge]; [exact Hlt|].
    destruct (create_half_cylinder_returns radius height segments color origin axis Hge)
      as [m Hm].
    rewrite Hm in Hnone. discriminate Hnone.
  - intros Hlt. destruct origin as [[ox oy] oz]. unfold create_half_cylinder.
    rewrite (Nat.div_small segments 2 Hlt). reflexivity.
Qed.

(** * Further properties of the combinator *)

Lemma Forall_firstn {A : Type} (P : A -> Prop) (n : nat) (l : list A) :
  Forall P l -> Forall P (firstn n l).
Proof.
  intros H. revert n. induction H as [|a l Ha _ IH]; intros [|n]; cbn; constructor; auto.
Qed.

Lemma nth_error_concat_map {A : Type} (f : mesh -> list A) (ms : list mesh) :
  forall k m j,
    nth_error ms k = Some m -> (j < length (f m))%nat ->
    nth_error (concat (map f ms)) (length (concat (map f (firstn k ms))) + j)
    = nth_error (f m) j.
Proof.
  induction ms as [|m0 ms IH]; intros k m j Hk Hj.
  - destruct k; discriminate Hk.
  - destruct k as [|k].
    + cbn in Hk. apply some_eq in Hk. subst m0.
      cbn [firstn map concat length Nat.add]. apply nth_error_app1. exact Hj.
    + cbn [nth_error] in Hk. cbn [firstn map concat].
      rewrite length_app, <- Nat.add_assoc.
      rewrite nth_error_app2 by lia.
      replace (length (f m0) + (length (concat (map f (firstn k ms))) + j) - length (f m0))%nat
        with (length (concat (map f (firstn k ms))) + j)%nat by lia.
      apply IH; assumption.
Qed.

Lemma starting_offset_as_length (ms : list mesh) (k : nat) :
  starting_offset ms k = len (concat (map positions (firstn k ms))).
Proof. unfold starting_offset. symmetry. apply len_concat_positions. Qed.

Lemma nth_error_at_offset {A : Type} (f : mesh -> list A) (ms : list mesh)
    (k : nat) (m : mesh) (i : Z) :
  Forall (fun m' => length (f m') = length (positions m')) ms ->
  nth_error ms k = Some m ->
  0 <= i < len (positions m) ->
  nth_error (concat (map f ms)) (Z.to_nat (i + starting_offset ms k))
  = nth_error (f m) (Z.to_nat i).
Proof.
  intros Hshape Hk Hi.
  assert (Hm : length (f m) = length (positions m)).
  { rewrite Forall_forall in Hshape. apply Hshape. eapply nth_error_In. exact Hk. }
  rewrite starting_offset_as_length. unfold len in *.
  replace (length (concat (map positions (firstn k ms))))
    with (length (concat (map f (firstn k ms)))).
  - replace (Z.to_nat (i + Z.of_nat (length (concat (map f (firstn k ms))))))
      with (length (concat (map f (firstn k ms))) + Z.to_nat i)%nat by lia.
    apply nth_error_concat_map; [exact Hk | lia].
  - apply length_concat_same_shape. apply Forall_firstn. exact Hshape.
Qed.

Lemma triangles_map (g : Z -> Z) (l : list Z) :
  triangles (map g l) = map (fun t => let '(a, b, c) := t in (g a, g b, g c)) (triangles l).
Proof.
  induction l as [| a | a b | a b c rest IH] using triple_induction; try reflexivity.
  cbn [map triangles]. rewrite IH. reflexivity.
Qed.

Lemma In_triangles (l : list Z) (a b c : Z) :
  In (a, b, c) (triangles l) -> In a l /\ In b l /\ In c l.
Proof.
  intros Ht.
  assert (Hall : Forall (fun x => In x l) l) by (apply Forall_forall; auto).
  apply Forall_triangles in Hall. rewrite Forall_forall in Hall.
  apply (Hall (a, b, c) Ht).
Qed.

Lemma triangles_shifted_exact_In (ms : list mesh) : forall off k m t,
  Forall primitive_ok ms -> nth_error ms k = Some m ->
  In t (triangles (indices m)) ->
  In (shift_triangle (off + starting_offset ms k) t)
     (triangles (concat (shifted_exact off ms))).
Proof.
  induction ms as [|m0 ms IH]; intros off k m t Hok Hk Ht.
  - destruct k; discriminate Hk.
  - inversion Hok as [|? ? Hm Hrest]; subst.
    cbn [shifted_exact concat].
    rewrite triangles_app by (rewrite length_map; apply Hm).
    apply in_or_app. destruct k as [|k].
    + left. cbn [nth_error] in Hk. apply some_eq in Hk. subst m0.
      rewrite triangles_map. apply in_map_iff. exists t. split; [|exact Ht].
      destruct t as [[a b] c]. unfold shift_triangle, starting_offset.
      cbn [firstn total_vertices fold_right]. rewrite Z.add_0_r. reflexivity.
    + right. cbn [nth_error] in Hk. rewrite starting_offset_cons.
      replace (off + (len (positions m0) + starting_offset ms k))
        with (off + len (positions m0) + starting_offset ms k) by lia.
      apply (IH (off + len (positions m0)) k m t); assumption.
Qed.

(** X8.  Merging keeps every vertex and, below 2^32 vertices, every
    triangle: after [merge_meshes] of well-formed inputs, the vertex the
    [k]-th input had at index [i] is found at index [i] plus that input's
    starting offset, with the same position, normal and color; and when
    the total vertex count is below 2^32, every triangle [(a, b, c)] of the
    [k]-th input occurs in the merged index buffer as
    [(a + off, b + off, c + off)] and its three corners are the positions,
    normals and colors they were in the input. *)
Theorem merge_meshes_keeps_vertices (ms : list mesh) (r : mesh) (k : nat) (m : mesh) :
  merge_meshes ms = Some r ->
  Forall primitive_ok ms ->
  nth_error ms k = Some m ->
  let off := starting_offset ms k in
  (forall i, 0 <= i < len (positions m) ->
     vertex (positions r) (i + off) = vertex (positions m) i /\
     vertex (normals r) (i + off) = vertex (normals m) i /\
     vertex (colors r) (i + off) = vertex (colors m) i) /\
  (total_vertices ms < 2 ^ 32 ->
   forall a b c, In (a, b, c) (triangles (indices m)) ->
     In (a + off, b + off, c + off) (triangles (indices r)) /\
     map (vertex (positions r)) [a + off; b + off; c + off]
       = map (vertex (positions m)) [a; b; c] /\
     map (vertex (normals r)) [a + off; b + off; c + off]
       = map (vertex (normals m)) [a; b; c] /\
     map (vertex (colors r)) [a + off; b + off; c + off]
       = map (vertex (colors m)) [a; b; c]).
Proof.
  intros Hr Hok Hk off.
  assert (Hne : ms <> []) by (intros ->; destruct k; discriminate Hk).
  rewrite (merge_meshes_nonempty ms Hne) in Hr. apply some_eq in Hr. subst r.
  cbn [positions normals colors indices].
  assert (Hvert : forall i, 0 <= i < len (positions m) ->
     vertex (concat (map positions ms)) (i + off) = vertex (positions m) i /\
     vertex (concat (map normals ms)) (i + off) = vertex (normals m) i /\
     vertex (concat (map colors ms)) (i + off) = vertex (colors m) i).
  { intros i Hi. unfold vertex, off.
    split; [|split]; apply nth_error_at_offset; try assumption.
    - apply Forall_forall. reflexivity.
    - eapply Forall_impl; [|exact Hok]. intros m' (_ & _ & H & _). symmetry. exact H.
    - eapply Forall_impl; [|exact Hok]. intros m' (_ & _ & H1 & H2). congruence. }
  split; [exact Hvert|].
  intros Hbound a b c Ht.
  assert (Hm : primitive_ok m).
  { rewrite Forall_forall in Hok. apply Hok. eapply nth_error_In. exact Hk. }
  destruct Hm as (_ & Hidx & _). rewrite Forall_forall in Hidx.
  destruct (In_triangles _ _ _ _ Ht) as (Ia & Ib & Ic).
  destruct (Hvert a (Hidx a Ia)) as (Pa & Na & Ca).
  destruct (Hvert b (Hidx b Ib)) as (Pb & Nb & Cb).
  destruct (Hvert c (Hidx c Ic)) as (Pc & Nc & Cc).
  split.
  - rewrite shifted_is_exact by (auto; lia).
    pose proof (triangles_shifted_exact_In ms 0 k m (a, b, c) Hok Hk Ht) as Hin.
    unfold shift_triangle in Hin. rewrite Z.add_0_l in Hin. exact Hin.
  - cbn [map]. rewrite Pa, Pb, Pc, Na, Nb, Nc, Ca, Cb, Cc. repeat split.
Qed.

Lemma merge_meshes_keeps_vertices_witness :
  let A := create_box 0.28 0.18 0.10 (0.545, 0.118, 0.118)%R (0, 0, 0)%R in
  let B := create_cylinder 0.02 0.05 6 (0.5, 0.5, 0.5)%R (0, 0, 0)%R None in
  exists r,
    merge_meshes [A; B] = Some r /\
    vertex (positions r) 36 = vertex (positions B) 12 /\
    vertex (normals r) 36 = vertex (normals B) 12 /\
    vertex (colors r) 36 = vertex (colors B) 12 /\
    (forall a b c, In (a, b, c) (triangles (indices B)) ->
       In (a + 24, b + 24, c + 24) (triangles (indices r))).
Proof.
  intros A B.
  assert (HA : len (positions A) = 24) by reflexivity.
  assert (HB : len (positions B) = 26).
  { unfold len, B.
    rewrite (proj1 (create_cylinder_counts 0.02 0.05 6 (0.5, 0.5, 0.5)%R (0, 0, 0)%R None)).
    reflexivity. }
  assert (Hok : Forall primitive_ok [A; B])
    by (each_element; [apply create_box_ok | apply create_cylinder_ok]).
  destruct (merge_meshes_ok [A; B]) as (r & Hr & _); [discriminate | exact Hok |].
  destruct (merge_meshes_keeps_vertices [A; B] r 1 B Hr Hok eq_refl) as [Hvert Htri].
  exists r. split; [exact Hr|].
  destruct (Hvert 12) as (Hp & Hn & Hc); [rewrite HB; lia|].
  split; [exact Hp|]. split; [exact Hn|]. split; [exact Hc|].
  intros a b c Ht. apply Htri; [|exact Ht].
  rewrite !total_vertices_cons, HA, HB. reflexivity.
Defined.

Lemma total_vertices_app (ms1 ms2 : list mesh) :
  total_vertices (ms1 ++ ms2) = total_vertices ms1 + total_vertices ms2.
Proof.
  induction ms1 as [|m ms1 IH]; [reflexivity|].
  cbn [app]. rewrite !total_vertices_cons, IH. lia.
Qed.

Lemma shifted_app (ms1 ms2 : list mesh) : forall off,
  shifted off (ms1 ++ ms2) = shifted off ms1 ++ shifted (off + total_vertices ms1) ms2.
Proof.
  induction ms1 as [|m ms1 IH]; intros off.
  - cbn [app shifted]. f_equal. unfold total_vertices. cbn [fold_right]. lia.
  - cbn [app shifted]. rewrite IH, total_vertices_cons. do 3 f_equal. lia.
Qed.

Lemma u32_add_idem (x a b : Z) : u32 (u32 (x + a) + b) = u32 (x + (a + b)).
Proof.
  unfold u32. rewrite Zplus_mod_idemp_l. f_equal. lia.
Qed.

Lemma add_offset_concat_shifted (ms : list mesh) : forall a b,
  add_offset (concat (shifted a ms)) b = concat (shifted (a + b) ms).
Proof.
  induction ms as [|m ms IH]; intros a b; [reflexivity|].
  cbn [shifted concat]. unfold add_offset at 1. rewrite map_app. f_equal.
  - unfold add_offset. rewrite map_map. apply map_ext. intros i. apply u32_add_idem.
  - fold (add_offset (concat (shifted (a + len (positions m)) ms)) b).
    rewrite IH. do 2 f_equal. lia.
Qed.

(** X9.  Merging composes: for well-formed inputs with fewer than 2^32
    vertices in total, merging two non-empty groups separately and then
    merging the two results gives the same mesh as merging all inputs in
    one call, and its index buffer is the inputs' indices shifted by their
    starting offsets (this is how [create_rounded_box] results can be
    merged further). *)
Theorem merge_meshes_in_stages (ms1 ms2 : list mesh) :
  ms1 <> [] -> ms2 <> [] ->
  Forall primitive_ok (ms1 ++ ms2) ->
  total_vertices (ms1 ++ ms2) < 2 ^ 32 ->
  exists r,
    merge_meshes (ms1 ++ ms2) = Some r /\
    (a <- merge_meshes ms1 ;; b <- merge_meshes ms2 ;; merge_meshes [a; b]) = Some r /\
    indices r = offset_indices (ms1 ++ ms2).
Proof.
  intros H1 H2 Hok Hbound.
  assert (H12 : ms1 ++ ms2 <> []) by (destruct ms1; [contradiction | discriminate]).
  rewrite (merge_meshes_nonempty ms1 H1), (merge_meshes_nonempty ms2 H2),
    (merge_meshes_nonempty _ H12).
  eexists. split; [reflexivity|]. split.
  - cbn [bind]. rewrite merge_meshes_nonempty by discriminate. f_equal.
    cbn [map concat positions normals colors indices shifted].
    rewrite !app_nil_r, !map_app, !concat_app, len_concat_positions.
    f_equal.
    rewrite shifted_app, concat_app, !add_offset_concat_shifted.
    reflexivity.
  - cbn [indices]. rewrite shifted_is_exact by (auto; lia).
    apply concat_shifted_exact.
Qed.

Lemma merge_meshes_in_stages_witness :
  let A := create_box 0.28 0.18 0.10 (0.545, 0.118, 0.118)%R (0, 0, 0)%R in
  let B := create_cylinder 0.02 0.05 6 (0.5, 0.5, 0.5)%R (0, 0, 0)%R None in
  exists r,
    merge_meshes [A; B; B] = Some r /\
    (a <- merge_meshes [A; B] ;; b <- merge_meshes [B] ;; merge_meshes [a; b]) = Some r.
Proof.
  intros A B.
  assert (HA : len (positions A) = 24) by reflexivity.
  assert (HB : len (positions B) = 26).
  { unfold len, B.
    rewrite (proj1 (create_cylinder_counts 0.02 0.05 6 (0.5, 0.5, 0.5)%R (0, 0, 0)%R None)).
    reflexivity. }
  destruct (merge_meshes_in_stages [A; B] [B]) as (r & Hall & Hstaged & _).
  - discriminate.
  - discriminate.
  - cbn [app]. each_element;
      [apply create_box_ok | apply create_cylinder_ok | apply create_cylinder_ok].
  - cbn [app]. rewrite !total_vertices_cons, HA, HB. reflexivity.
  - exists r. split; [exact Hall | exact Hstaged].
Defined.

(** X10.  Merging a single mesh whose indices are [uint32] values returns
    that mesh unchanged. *)
Theorem merge_meshes_single (m : mesh) :
  Forall (fun i => 0 <= i < 2 ^ 32) (indices m) ->
  merge_meshes [m] = Some m.
Proof.
  intros Hidx. rewrite merge_meshes_nonempty by discriminate.
  destruct m as [p n c i]. cbn [map concat positions normals colors indices shifted] in *.
  rewrite !app_nil_r. do 2 f_equal.
  unfold add_offset. rewrite <- (map_id i) at 2. apply map_ext_in.
  intros x Hx. rewrite Forall_forall in Hidx. rewrite Z.add_0_r.
  apply u32_small. apply Hidx. exact Hx.
Qed.

Lemma merge_meshes_single_witness :
  let tri := [(0, 0, 0); (1, 0, 0); (0, 1, 0)]%R in
  let m := {| positions := tri; normals := tri; colors := tri; indices := [0; 1; 2] |} in
  merge_meshes [m] = Some m.
Proof.
  intros tri m. apply (merge_meshes_single m). cbn [indices m]. each_element; lia.
Defined.

Lemma list_sum_cons (a : nat) (l : list nat) : list_sum (a :: l) = (a + list_sum l)%nat.
Proof. reflexivity. Qed.

Lemma length_concat_shifted (ms : list mesh) : forall off,
  length (concat (shifted off ms)) = list_sum (map (fun m => length (indices m)) ms).
Proof.
  induction ms as [|m ms IH]; intros off; [reflexivity|].
  cbn [shifted concat map]. rewrite list_sum_cons, length_app, IH.
  unfold add_offset. rewrite length_map. reflexivity.
Qed.

Lemma list_sum_div3 (ms : list mesh) :
  Forall primitive_ok ms ->
  (list_sum (map (fun m => length (indices m)) ms) / 3)%nat
  = list_sum (map (fun m => (length (indices m) / 3)%nat) ms).
Proof.
  induction 1 as [|m ms Hm _ IH]; [reflexivity|].
  cbn [map]. rewrite !list_sum_cons. destruct Hm as (Hmod & _).
  apply Nat.Div0.div_exact in Hmod. rewrite <- IH.
  set (q := (length (indices m) / 3)%nat) in *.
  set (rest := list_sum (map (fun m0 => length (indices m0)) ms)).
  rewrite Hmod. replace (3 * q + rest)%nat with (q * 3 + rest)%nat by lia.
  apply Nat.div_add_l. lia.
Qed.

(** X11.  The index count of a merged mesh is the sum of the inputs' index
    counts, and for well-formed inputs the triangle count that [create_glb]
    later reports ([len(indices) // 3]) is the sum of the inputs' triangle
    counts. *)
Theorem merge_meshes_triangle_count (ms : list mesh) (r : mesh) :
  merge_meshes ms = Some r ->
  length (indices r) = list_sum (map (fun m => length (indices m)) ms) /\
  (Forall primitive_ok ms ->
   (length (indices r) / 3)%nat
   = list_sum (map (fun m => (length (indices m) / 3)%nat) ms)).
Proof.
  intros Hr.
  assert (Hne : ms <> []) by (intros ->; discriminate Hr).
  rewrite (merge_meshes_nonempty ms Hne) in Hr. apply some_eq in Hr. subst r.
  cbn [indices]. rewrite length_concat_shifted. split; [reflexivity|].
  apply list_sum_div3.
Qed.

Lemma merge_meshes_triangle_count_witness :
  let A := create_box 0.28 0.18 0.10 (0.545, 0.118, 0.118)%R (0, 0, 0)%R in
  let B := create_cylinder 0.02 0.05 6 (0.5, 0.5, 0.5)%R (0, 0, 0)%R None in
  exists r, merge_meshes [A; B] = Some r /\
            length (indices r) = 108%nat /\ (length (indices r) / 3)%nat = 36%nat.
Proof.
  intros A B.
  destruct (merge_meshes_ok [A; B]) as (r & Hr & _).
  - discriminate.
  - each_element; [apply create_box_ok | apply create_cylinder_ok].
  - exists r. split; [exact Hr|].
    destruct (merge_meshes_triangle_count [A; B] r Hr) as [Hlen Htri].
    split; [exact Hlen|]. rewrite Htri; [reflexivity|].
    each_element; [apply create_box_ok | apply create_cylinder_ok].
Defined.

(** * Further properties of the writer *)

(** X12.  Index round trip: in the document [create_glb] saves, the bytes
    named by the fourth buffer view decode (little-endian, four bytes per
    element) to the index array reduced modulo 2^32, hence to the index
    array itself when its values are [uint32] values. *)
Theorem create_glb_index_round_trip (float32_bytes : R -> list byte)
    (positions normals colors : list vec3) (indices : list Z) (output_path : string) :
  positions <> [] ->
  exists gltf tri_count view,
    create_glb float32_bytes positions normals colors indices output_path
      = Some (output_path, gltf, tri_count) /\
    nth_error (bufferViews gltf) 3 = Some view /\
    target view = ELEMENT_ARRAY_BUFFER /\
    decode_uint32_array (view_bytes (binary_blob gltf) view)
      = Some (map (fun i => i mod 2 ^ 32) indices) /\
    (Forall (fun i => 0 <= i < 2 ^ 32) indices ->
     decode_uint32_array (view_bytes (binary_blob gltf) view) = Some indices).
Proof.
  intros Hne.
  destruct (create_glb_returns float32_bytes positions normals colors indices
              output_path Hne) as (gltf & Hrun & Hblob & Hviews & _).
  pose proof (glb_layout_holds (vec3_tobytes float32_bytes positions)
                (vec3_tobytes float32_bytes normals)
                (vec3_tobytes float32_bytes colors)
                (index_tobytes (astype_uint32 indices))) as Hlay.
  rewrite <- Hblob, <- Hviews in Hlay.
  destruct Hlay as (pp & np & cp & ip & _ & _ & _ & _ & _ & _ & _ & Hread).
  assert (Hview : exists view, nth_error (bufferViews gltf) 3 = Some view /\
                   target view = ELEMENT_ARRAY_BUFFER /\
                   view_bytes (binary_blob gltf) view
                   = index_tobytes (astype_uint32 indices)).
  { rewrite Hviews in Hread |- *. unfold glb_buffer_views in *.
    cbn [map nth_error] in *. eexists. split; [reflexivity|]. split; [reflexivity|].
    congruence. }
  destruct Hview as (view & Hnth & Htarget & Hbytes).
  exists gltf, (length indices / 3)%nat, view.
  split; [exact Hrun|]. split; [exact Hnth|]. split; [exact Htarget|].
  rewrite Hbytes.
  assert (Hdec : decode_uint32_array (index_tobytes (astype_uint32 indices))
                 = Some (map (fun i => i mod 2 ^ 32) indices)).
  { apply decode_index_tobytes. apply Forall_astype_uint32. }
  split; [exact Hdec|].
  intros Hidx. rewrite astype_uint32_id by exact Hidx.
  apply decode_index_tobytes. exact Hidx.
Qed.

Lemma create_glb_index_round_trip_witness :
  let m := create_box 0.28 0.18 0.10 (0.545, 0.118, 0.118)%R (0, 0, 0)%R in
  let f := fun _ : R => [x00; x00; x80; x3f] in
  exists gltf tri_count view,
    create_glb f (positions m) (normals m) (colors m) (indices m) "box.glb"
      = Some ("box.glb"%string, gltf, tri_count) /\
    nth_error (bufferViews gltf) 3 = Some view /\
    decode_uint32_array (view_bytes (binary_blob gltf) view) = Some (indices m).
Proof.
  intros m f.
  destruct (create_glb_index_round_trip f (positions m) (normals m) (colors m)
              (indices m) "box.glb"%string)
    as (gltf & tri & view & Hrun & Hnth & _ & _ & Hexact).
  - unfold m, create_box. cbn [positions]. discriminate.
  - exists gltf, tri, view. split; [exact Hrun|]. split; [exact Hnth|].
    apply Hexact. unfold m, create_box. cbn [indices].
    apply Forall_map, Forall_forall. intros x _. apply u32_bounds.
Defined.

Lemma pad_to_4_aligned (data : list byte) : (length (pad_to_4 data) mod 4 = 0)%nat.
Proof. destruct (pad_to_4_padded data) as (k & _ & _ & H). exact H. Qed.

Lemma pad_to_4_of_aligned (data : list byte) :
  (length data mod 4 = 0)%nat -> pad_to_4 data = data.
Proof.
  intros H. unfold pad_to_4. rewrite H. cbn. apply app_nil_r.
Qed.

Lemma pad_to_4_length_bounds (data : list byte) :
  (length data <= length (pad_to_4 data) < length data + 4)%nat.
Proof.
  destruct (pad_to_4_padded data) as (k & Hk & Hpad & _).
  rewrite Hpad, length_app, repeat_length. lia.
Qed.

(** X13.  [pad_to_4] leaves data whose length is a multiple of 4 untouched
    and changes everything else, never adds more than three bytes, keeps
    the data as a prefix, and padding twice is padding once. *)
Theorem pad_to_4_laws (data : list byte) :
  (pad_to_4 data = data <-> (length data mod 4 = 0)%nat) /\
  (length data <= length (pad_to_4 data) < length data + 4)%nat /\
  firstn (length data) (pad_to_4 data) = data /\
  pad_to_4 (pad_to_4 data) = pad_to_4 data.
Proof.
  destruct (pad_to_4_padded data) as (k & Hk & Hpad & Hmod).
  repeat split.
  - intros Heq. rewrite Heq in Hmod. exact Hmod.
  - apply pad_to_4_of_aligned.
  - rewrite Hpad, length_app. lia.
  - rewrite Hpad, length_app, repeat_length. lia.
  - rewrite Hpad. apply firstn_prefix.
  - apply pad_to_4_of_aligned. exact Hmod.
Qed.

Lemma mod4_add (a b : nat) :
  (a mod 4 = 0)%nat -> (b mod 4 = 0)%nat -> ((a + b) mod 4 = 0)%nat.
Proof. intros Ha Hb. rewrite Nat.Div0.add_mod, Ha, Hb. reflexivity. Qed.

(** X14.  Alignment of the binary chunk: whatever the four byte strings
    are, the blob length and the byte offset of every buffer view are
    multiples of 4, and every view lies inside the blob. *)
Theorem glb_views_aligned (pos_bytes norm_bytes color_bytes index_bytes : list byte) :
  let blob := glb_binary_data pos_bytes norm_bytes color_bytes index_bytes in
  let views := glb_buffer_views pos_bytes norm_bytes color_bytes index_bytes in
  (length blob mod 4 = 0)%nat /\
  Forall (fun v => (byteOffset v mod 4 = 0)%nat /\
                   (byteOffset v + byteLength v <= length blob)%nat) views.
Proof.
  intros blob views.
  pose proof (pad_to_4_aligned pos_bytes) as Hp.
  pose proof (pad_to_4_aligned norm_bytes) as Hn.
  pose proof (pad_to_4_aligned color_bytes) as Hc.
  pose proof (pad_to_4_aligned index_bytes) as Hi.
  pose proof (pad_to_4_length_bounds pos_bytes) as Hlp.
  pose proof (pad_to_4_length_bounds norm_bytes) as Hln.
  pose proof (pad_to_4_length_bounds color_bytes) as Hlc.
  pose proof (pad_to_4_length_bounds index_bytes) as Hli.
  unfold blob, views, glb_binary_data, glb_buffer_views.
  rewrite !length_app. split.
  - repeat apply mod4_add; assumption.
  - each_element; cbn [byteOffset byteLength]; split; try lia;
      try reflexivity; repeat apply mod4_add; assumption.
Qed.

Lemma mod4_of_multiple (k n : nat) : (k mod 4 = 0)%nat -> ((k * n) mod 4 = 0)%nat.
Proof.
  intros Hk. apply Nat.Div0.div_exact in Hk. rewrite Hk.
  replace (4 * (k / 4) * n)%nat with ((k / 4) * n * 4)%nat by lia.
  apply Nat.Div0.mod_mul.
Qed.

(** X15.  When every float is stored in four bytes, the serializer never
    inserts padding: the blob is the plain concatenation of the four byte
    strings, its length is [12 * (V_p + V_n + V_c) + 4 * I] for arrays of
    [V_p], [V_n], [V_c] vectors and [I] indices, and the views start at
    [0], [12 V_p], [12 V_p + 12 V_n] and [12 V_p + 12 V_n + 12 V_c]. *)
Theorem create_glb_no_padding (float32_bytes : R -> list byte)
    (positions normals colors : list vec3) (indices : list Z) (output_path : string) :
  (forall x, length (float32_bytes x) = 4%nat) ->
  positions <> [] ->
  exists gltf tri_count,
    create_glb float32_bytes positions normals colors indices output_path
      = Some (output_path, gltf, tri_count) /\
    binary_blob gltf =
      vec3_tobytes float32_bytes positions ++ vec3_tobytes float32_bytes normals ++
      vec3_tobytes float32_bytes colors ++ index_tobytes (astype_uint32 indices) /\
    length (binary_blob gltf) =
      (12 * (length positions + length normals + length colors) + 4 * length indices)%nat /\
    map byteOffset (bufferViews gltf) =
      [ 0; 12 * length positions; 12 * length positions + 12 * length normals;
        12 * length positions + 12 * length normals + 12 * length colors ]%nat /\
    map byteLength (bufferViews gltf) =
      [ 12 * length positions; 12 * length normals; 12 * length colors;
        4 * length indices ]%nat.
Proof.
  intros H4 Hne.
  destruct (create_glb_returns float32_bytes positions normals colors indices
              output_path Hne) as (gltf & Hrun & Hblob & Hviews & _).
  exists gltf, (length indices / 3)%nat. split; [exact Hrun|].
  pose proof (length_vec3_tobytes float32_bytes positions H4) as Lp.
  pose proof (length_vec3_tobytes float32_bytes normals H4) as Ln.
  pose proof (length_vec3_tobytes float32_bytes colors H4) as Lc.
  assert (Li : length (index_tobytes (astype_uint32 indices)) = (4 * length indices)%nat).
  { rewrite length_index_tobytes. unfold astype_uint32. rewrite length_map. reflexivity. }
  assert (Pp : pad_to_4 (vec3_tobytes float32_bytes positions)
               = vec3_tobytes float32_bytes positions).
  { apply pad_to_4_of_aligned. rewrite Lp. apply (mod4_of_multiple 12). reflexivity. }
  assert (Pn : pad_to_4 (vec3_tobytes float32_bytes normals)
               = vec3_tobytes float32_bytes normals).
  { apply pad_to_4_of_aligned. rewrite Ln. apply (mod4_of_multiple 12). reflexivity. }
  assert (Pc : pad_to_4 (vec3_tobytes float32_bytes colors)
               = vec3_tobytes float32_bytes colors).
  { apply pad_to_4_of_aligned. rewrite Lc. apply (mod4_of_multiple 12). reflexivity. }
  assert (Pi : pad_to_4 (index_tobytes (astype_uint32 indices))
               = index_tobytes (astype_uint32 indices)).
  { apply pad_to_4_of_aligned. rewrite Li. apply (mod4_of_multiple 4). reflexivity. }
  rewrite Hblob, Hviews. unfold glb_binary_data, glb_buffer_views.
  rewrite Pp, Pn, Pc, Pi. cbn [map byteOffset byteLength].
  rewrite !length_app, Lp, Ln, Lc, Li.
  repeat split; lia.
Qed.

Lemma create_glb_no_padding_witness :
  let m := create_box 0.28 0.18 0.10 (0.545, 0.118, 0.118)%R (0, 0, 0)%R in
  let f := fun _ : R => [x00; x00; x80; x3f] in
  exists gltf tri_count,
    create_glb f (positions m) (normals m) (colors m) (indices m) "box.glb"
      = Some ("box.glb"%string, gltf, tri_count) /\
    length (binary_blob gltf) = 1008%nat /\
    map byteOffset (bufferViews gltf) = [0; 288; 576; 864]%nat /\
    map byteLength (bufferViews gltf) = [288; 288; 288; 144]%nat.
Proof.
  intros m f.
  destruct (create_glb_no_padding f (positions m) (normals m) (colors m) (indices m)
              "box.glb"%string)
    as (gltf & tri & Hrun & _ & Hlen & Hoff & Hbl).
  - reflexivity.
  - unfold m, create_box. cbn [positions]. discriminate.
  - exists gltf, tri. split; [exact Hrun|]. split; [exact Hlen|].
    split; [exact Hoff | exact Hbl].
Defined.

(** X16.  [create_glb] raises before anything is written exactly when the
    position array is empty (the [min]/[max] reduction).  Otherwise,
    whatever the other three arrays are, it hands [gltf.save] the path it
    was given and a document whose accessor counts are the four array
    lengths, recorded without comparing them; it then returns
    [len(indices) // 3] if the write succeeds and raises if the write
    raises. *)
Theorem create_glb_and_save_outcome (float32_bytes : R -> list byte)
    (save : string -> GLTF2 -> bool)
    (positions normals colors : list vec3) (indices : list Z) (output_path : string) :
  (positions = [] ->
   create_glb float32_bytes positions normals colors indices output_path = None /\
   create_glb_and_save float32_bytes save positions normals colors indices output_path
     = None) /\
  (positions <> [] ->
   exists gltf,
     create_glb float32_bytes positions normals colors indices output_path
       = Some (output_path, gltf, (length indices / 3)%nat) /\
     map count (accessors gltf)
       = [length positions; length normals; length colors; length indices] /\
     map bufferView (accessors gltf) = [0; 1; 2; 3] /\
     map componentType (accessors gltf) = [FLOAT; FLOAT; FLOAT; UNSIGNED_INT] /\
     create_glb_and_save float32_bytes save positions normals colors indices output_path
       = if save output_path gltf then Some (length indices / 3)%nat else None).
Proof.
  split.
  - intros ->. split; reflexivity.
  - intros Hne.
    destruct (create_glb_returns float32_bytes positions normals colors indices
                output_path Hne) as (gltf & Hrun & _ & _ & Hacc).
    exists gltf. split; [exact Hrun|]. rewrite Hacc.
    split; [reflexivity|]. split; [reflexivity|]. split; [reflexivity|].
    unfold create_glb_and_save. rewrite Hrun. reflexivity.
Qed.

Lemma create_glb_and_save_outcome_witness :
  let tri := [(0, 0, 0); (1, 0, 0); (0, 1, 0)]%R in
  let f := fun _ : R => [x00; x00; x80; x3f] in
  create_glb_and_save f (fun _ _ => true) [] tri tri [0; 1; 2] "tri.glb" = None /\
  create_glb_and_save f (fun _ _ => true) tri [] [] [0; 1; 2; 7] "tri.glb" = Some 1%nat /\
  create_glb_and_save f (fun _ _ => false) tri tri tri [0; 1; 2] "tri.glb" = None.
Proof.
  intros tri f. split; [|split].
  - apply (proj1 (create_glb_and_save_outcome f (fun _ _ => true) [] tri tri [0; 1; 2]
                    "tri.glb"%string)).
    reflexivity.
  - destruct (proj2 (create_glb_and_save_outcome f (fun _ _ => true) tri [] []
                       [0; 1; 2; 7] "tri.glb"%string))
      as (gltf & _ & _ & _ & _ & Hsave).
    + discriminate.
    + exact Hsave.
  - destruct (proj2 (create_glb_and_save_outcome f (fun _ _ => false) tri tri tri
                       [0; 1; 2] "tri.glb"%string))
      as (gltf & _ & _ & _ & _ & Hsave).
    + discriminate.
    + exact Hsave.
Defined.

(** * The item models *)

Lemma merge_meshes_built (ms : list mesh) :
  ms <> [] -> Forall primitive_ok ms ->
  exists r, merge_meshes ms = Some r /\ primitive_ok r /\
            length (positions r) = length (concat (map positions ms)) /\
            length (indices r) = list_sum (map (fun m => length (indices m)) ms).
Proof.
  intros Hne Hok. destruct (merge_meshes_ok ms Hne Hok) as (r & Hr & Hrok).
  exists r. split; [exact Hr|]. split; [exact Hrok|].
  rewrite (merge_meshes_nonempty ms Hne) in Hr. apply some_eq in Hr. subst r.
  cbn [positions indices]. split; [reflexivity | apply length_concat_shifted].
Qed.

Ltac builder_calls_ok :=
  cbn [app map flat_map range seq];
  each_element; first [apply create_box_ok | apply create_cylinder_ok].


Lemma create_flashlight_built :
  exists r, GenerateItemModels.create_flashlight = Some r /\ primitive_ok r /\
            length (positions r) = 594%nat /\ length (indices r) = 1512%nat.
Proof.
  unfold GenerateItemModels.create_flashlight. cbv zeta.
  match goal with
  | |- exists r, merge_meshes ?ms = Some r /\ _ =>
      destruct (merge_meshes_built ms) as (r & Hr & Hok & Hp & Hi);
      [ cbn [app map flat_map range seq]; discriminate
      | builder_calls_ok
      | exists r; split; [exact Hr|]; split; [exact Hok|] ]
  end.
  rewrite Hp, Hi. split; reflexivity.
Qed.

Lemma create_medkit_built :
  exists r, GenerateItemModels.create_medkit = Some r /\ primitive_ok r /\
            length (positions r) = 608%nat /\ length (indices r) = 1044%nat.
Proof.
  unfold GenerateItemModels.create_medkit. cbv zeta.
  match goal with
  | |- exists r, merge_meshes ?ms = Some r /\ _ =>
      destruct (merge_meshes_built ms) as (r & Hr & Hok & Hp & Hi);
      [ cbn [app map flat_map range seq]; discriminate
      | builder_calls_ok
      | exists r; split; [exact Hr|]; split; [exact Hok|] ]
  end.
  rewrite Hp, Hi. split; reflexivity.
Qed.

Lemma create_toolbox_built :
  exists r, GenerateItemModels.create_toolbox = Some r /\ primitive_ok r /\
            length (positions r) = 654%nat /\ length (indices r) = 1116%nat.
Proof.
  unfold GenerateItemModels.create_toolbox. cbv zeta.
  match goal with
  | |- exists r, merge_meshes ?ms = Some r /\ _ =>
      destruct (merge_meshes_built ms) as (r & Hr & Hok & Hp & Hi);
      [ cbn [app map flat_map range seq]; discriminate
      | builder_calls_ok
      | exists r; split; [exact Hr|]; split; [exact Hok|] ]
  end.
  rewrite Hp, Hi. split; reflexivity.
Qed.

Lemma create_map_built :
  exists r, GenerateItemModels.create_map = Some r /\ primitive_ok r /\
            length (positions r) = 414%nat /\ length (indices r) = 720%nat.
Proof.
  unfold GenerateItemModels.create_map. cbv zeta.
  match goal with
  | |- exists r, merge_meshes ?ms = Some r /\ _ =>
      destruct (merge_meshes_built ms) as (r & Hr & Hok & Hp & Hi);
      [ cbn [app map flat_map range seq]; discriminate
      | builder_calls_ok
      | exists r; split; [exact Hr|]; split; [exact Hok|] ]
  end.
  rewrite Hp, Hi. split; reflexivity.
Qed.

Lemma create_medkit_standalone_built :
  exists r, GenerateMedkit.create_medkit = Some r /\ primitive_ok r /\
            length (positions r) = 740%nat /\ length (indices r) = 1128%nat.
Proof.
  unfold GenerateMedkit.create_medkit. cbv zeta.
  match goal with
  | |- context [bind (create_half_cylinder ?a ?b ?c ?d ?e ?f) _] =>
      destruct (create_half_cylinder_returns a b c d e f) as [left_edge Hleft]; [lia|];
      rewrite Hleft; cbn [bind]
  end.
  match goal with
  | |- context [bind (create_half_cylinder ?a ?b ?c ?d ?e ?f) _] =>
      destruct (create_half_cylinder_returns a b c d e f) as [right_edge Hright]; [lia|];
      rewrite Hright; cbn [bind]
  end.
  pose proof (create_half_cylinder_counts _ _ _ _ _ _ _ Hleft) as (Lp & _ & _ & Li).
  pose proof (create_half_cylinder_counts _ _ _ _ _ _ _ Hright) as (Rp & _ & _ & Ri).
  match goal with
  | |- exists r, merge_meshes ?ms = Some r /\ _ =>
      destruct (merge_meshes_built ms) as (r & Hr & Hok & Hp & Hi);
      [ cbn [app map flat_map range seq]; discriminate
      | cbn [app map flat_map range seq]; each_element;
        first [ apply create_box_ok
              | eapply create_half_cylinder_ok; eassumption ]
      | exists r; split; [exact Hr|]; split; [exact Hok|] ]
  end.
  rewrite Hp, Hi.
  cbn [app map flat_map range seq concat]. rewrite !list_sum_cons, !length_app.
  rewrite Lp, Li, Rp, Ri. split; reflexivity.
Qed.

(** X18.  [create_flashlight] returns a well-formed compound mesh of 594
    vertices and 504 triangles (nine 12-segment cylinders and six boxes). *)
Theorem create_flashlight_model :
  exists r, GenerateItemModels.create_flashlight = Some r /\ primitive_ok r /\
            length (positions r) = 594%nat /\
            (length (indices r) / 3)%nat = 504%nat /\
            length (triangles (indices r)) = 504%nat.
Proof.
  destruct create_flashlight_built as (r & Hr & Hok & Hp & Hi).
  exists r. split; [exact Hr|]. split; [exact Hok|]. split; [exact Hp|].
  pose proof (length_triangles (indices r) (proj1 Hok)) as Ht.
  rewrite Hi in *. split; [reflexivity | lia].
Qed.

(** X19.  [create_medkit] of the item generator returns a well-formed
    compound mesh of 608 vertices and 348 triangles (21 boxes and four
    6-segment cylinders). *)
Theorem create_medkit_model :
  exists r, GenerateItemModels.create_medkit = Some r /\ primitive_ok r /\
            length (positions r) = 608%nat /\
            (length (indices r) / 3)%nat = 348%nat /\
            length (triangles (indices r)) = 348%nat.
Proof.
  destruct create_medkit_built as (r & Hr & Hok & Hp & Hi).
  exists r. split; [exact Hr|]. split; [exact Hok|]. split; [exact Hp|].
  pose proof (length_triangles (indices r) (proj1 Hok)) as Ht.
  rewrite Hi in *. split; [reflexivity | lia].
Qed.

(** X20.  [create_toolbox] returns a well-formed compound mesh of 654
    vertices and 372 triangles (23 boxes and three 8-segment cylinders). *)
Theorem create_toolbox_model :
  exists r, GenerateItemModels.create_toolbox = Some r /\ primitive_ok r /\
            length (positions r) = 654%nat /\
            (length (indices r) / 3)%nat = 372%nat /\
            length (triangles (indices r)) = 372%nat.
Proof.
  destruct create_toolbox_built as (r & Hr & Hok & Hp & Hi).
  exists r. split; [exact Hr|]. split; [exact Hok|]. split; [exact Hp|].
  pose proof (length_triangles (indices r) (proj1 Hok)) as Ht.
  rewrite Hi in *. split; [reflexivity | lia].
Qed.

(** X21.  [create_map] returns a well-formed compound mesh of 414 vertices
    and 240 triangles (14 boxes and three 6-segment cylinders). *)
Theorem create_map_model :
  exists r, GenerateItemModels.create_map = Some r /\ primitive_ok r /\
            length (positions r) = 414%nat /\
            (length (indices r) / 3)%nat = 240%nat /\
            length (triangles (indices r)) = 240%nat.
Proof.
  destruct create_map_built as (r & Hr & Hok & Hp & Hi).
  exists r. split; [exact Hr|]. split; [exact Hok|]. split; [exact Hp|].
  pose proof (length_triangles (indices r) (proj1 Hok)) as Ht.
  rewrite Hi in *. split; [reflexivity | lia].
Qed.

(** X22.  [create_medkit] of the standalone medkit generator does not
    raise (both half-cylinder calls have 8 segments) and returns a
    well-formed compound mesh of 740 vertices and 376 triangles (30 boxes
    and two half-cylinders). *)
Theorem create_medkit_standalone_model :
  exists r, GenerateMedkit.create_medkit = Some r /\ primitive_ok r /\
            length (positions r) = 740%nat /\
            (length (indices r) / 3)%nat = 376%nat /\
            length (triangles (indices r)) = 376%nat.
Proof.
  destruct create_medkit_standalone_built as (r & Hr & Hok & Hp & Hi).
  exists r. split; [exact Hr|]. split; [exact Hok|]. split; [exact Hp|].
  pose proof (length_triangles (indices r) (proj1 Hok)) as Ht.
  rewrite Hi in *. split; [reflexivity | lia].
Qed.

(** * Triangle orientation *)

Lemma create_box_indices w h d color origin :
  indices (create_box w h d color origin) =
  [ 0; 1; 2; 0; 2; 3;  4; 5; 6; 4; 6; 7;  8; 9; 10; 8; 10; 11;
    12; 13; 14; 12; 14; 15;  16; 17; 18; 16; 18; 19;  20; 21; 22; 20; 22; 23 ].
Proof. destruct origin as [[ox oy] oz]. reflexivity. Qed.

(** X25.  Box triangles face outward: for positive dimensions every box
    triangle is counter-clockwise when seen from the side the normal of
    its face points to (the triple product of the stored normal with the
    two edge vectors is positive). *)
Theorem create_box_winding (w h d : R) (color origin : vec3) :
  (0 < w)%R -> (0 < h)%R -> (0 < d)%R ->
  let m := create_box w h d color origin in
  Forall (fun t => exists s, winding m t = Some s /\ (0 < s)%R)
         (triangles (indices m)).
Proof.
  intros Hw Hh Hd m. unfold m. rewrite create_box_indices.
  destruct origin as [[ox oy] oz].
  assert (Hwh : (0 < w * h)%R) by (apply Rmult_lt_0_compat; assumption).
  assert (Hwd : (0 < w * d)%R) by (apply Rmult_lt_0_compat; assumption).
  assert (Hhd : (0 < h * d)%R) by (apply Rmult_lt_0_compat; assumption).
  cbn [triangles]. each_element; eexists; (split; [reflexivity|]);
    unfold dot, cross, vsub; cbn [vx vy vz fst snd];
    match goal with
    | |- (0 < ?e)%R =>
        first [ replace e with (w * h)%R by field; exact Hwh
              | replace e with (w * d)%R by field; exact Hwd
              | replace e with (h * d)%R by field; exact Hhd ]
    end.
Qed.

Lemma create_box_winding_witness :
  let m := create_box 0.28 0.18 0.10 (0.545, 0.118, 0.118)%R (0, 0, 0)%R in
  Forall (fun t => exists s, winding m t = Some s /\ (0 < s)%R)
         (triangles (indices m)).
Proof.
  apply (create_box_winding 0.28 0.18 0.10 (0.545, 0.118, 0.118)%R (0, 0, 0)%R); lra.
Defined.

Lemma nth_error_pairs {B : Type} (f g : nat -> B) (n : nat) : forall a i,
  (i < n)%nat ->
  nth_error (flat_map (fun k => [f k; g k]) (seq a n)) (2 * i) = Some (f (a + i)%nat) /\
  nth_error (flat_map (fun k => [f k; g k]) (seq a n)) (2 * i + 1) = Some (g (a + i)%nat).
Proof.
  induction n as [|n IH]; intros a i Hi; [lia|].
  cbn [seq flat_map app]. destruct i as [|i].
  - rewrite Nat.add_0_r. split; reflexivity.
  - replace (2 * S i)%nat with (S (S (2 * i))) by lia.
    replace (S (S (2 * i)) + 1)%nat with (S (S (2 * i + 1))) by lia.
    cbn [nth_error]. replace (a + S i)%nat with (S a + i)%nat by lia.
    apply IH. lia.
Qed.

Lemma nth_error_map_seq {B : Type} (f : nat -> B) (n : nat) : forall a i,
  (i < n)%nat -> nth_error (map f (seq a n)) i = Some (f (a + i)%nat).
Proof.
  induction n as [|n IH]; intros a i Hi; [lia|].
  cbn [seq map]. destruct i as [|i].
  - rewrite Nat.add_0_r. reflexivity.
  - cbn [nth_error]. replace (a + S i)%nat with (S a + i)%nat by lia. apply IH. lia.
Qed.

Lemma Forall_triangles_loop (P : Z * Z * Z -> Prop) (f : nat -> list Z) (n : nat) :
  (forall i, (i < n)%nat ->
     (length (f i) mod 3 = 0)%nat /\ Forall P (triangles (f i))) ->
  Forall P (triangles (flat_map f (range n))).
Proof.
  unfold range. intros H.
  assert (Hgen : forall l, (forall i, In i l -> (i < n)%nat) ->
                           Forall P (triangles (flat_map f l))).
  { induction l as [|x l IH]; intros Hl; [constructor|].
    cbn [flat_map]. destruct (H x (Hl x (or_introl eq_refl))) as [Hmod HP].
    rewrite triangles_app by exact Hmod. apply Forall_app. split; [exact HP|].
    apply IH. intros i Hi. apply Hl. right. exact Hi. }
  apply Hgen. intros i Hi. apply in_seq in Hi. lia.
Qed.

Lemma vertex_u32 (arr : list vec3) (z : Z) (k : nat) :
  z = ZN k -> ZN k < 2 ^ 32 -> vertex arr (u32 z) = nth_error arr k.
Proof.
  intros -> Hk. unfold vertex. rewrite u32_small by (unfold ZN in *; lia).
  unfold ZN. rewrite Nat2Z.id. reflexivity.
Qed.

Lemma next_step_Z (i segments : nat) :
  (ZN i + 1) mod ZN segments = ZN (next_step i segments).
Proof.
  unfold next_step, ZN. rewrite Nat2Z.inj_mod. f_equal. lia.
Qed.

Lemma next_step_lt (i segments : nat) :
  (0 < segments)%nat -> (next_step i segments < segments)%nat.
Proof. intros H. unfold next_step. apply Nat.mod_upper_bound. lia. Qed.

(** The angular step between consecutive ring vertices, wrap-around
    included, has a positive sine. *)
Lemma ring_step_sine (i segments : nat) :
  (3 <= segments)%nat -> (i < segments)%nat ->
  let a := full_angle i segments in
  let a' := full_angle (next_step i segments) segments in
  (sin a' * cos a - cos a' * sin a = sin (2 * PI / INR segments))%R /\
  (0 < sin (2 * PI / INR segments))%R.
Proof.
  intros Hseg Hi a a'.
  assert (HN : (3 <= INR segments)%R).
  { replace 3%R with (INR 3) by (cbn; lra). apply le_INR. exact Hseg. }
  pose proof PI_RGT_0 as Hpi.
  split.
  - rewrite <- sin_minus. unfold a, a', full_angle, next_step.
    destruct (Nat.eq_dec (S i) segments) as [Heq|Hneq].
    + subst segments. rewrite Nat.Div0.mod_same. change (INR 0) with 0%R.
      rewrite S_INR in *.
      replace (2 * PI * 0 / (INR i + 1) - 2 * PI * INR i / (INR i + 1))%R
        with (2 * PI / (INR i + 1) - 2 * PI)%R by (field; lra).
      rewrite sin_minus, sin_2PI, cos_2PI. ring.
    + rewrite Nat.mod_small by lia. rewrite S_INR. f_equal. field. lra.
  - apply sin_gt_0.
    + apply Rdiv_lt_0_compat; lra.
    + apply (Rmult_lt_reg_r (INR segments)); [lra|].
      unfold Rdiv. rewrite Rmult_assoc, Rinv_l by lra. nra.
Qed.

Lemma nth_error_three_parts {B : Type} (side top bot : list B) (c1 c2 : B) (n : nat) :
  length side = (2 * n)%nat -> length top = n ->
  (forall k, (k < 2 * n)%nat ->
     nth_error (side ++ (c1 :: top) ++ c2 :: bot) k = nth_error side k) /\
  nth_error (side ++ (c1 :: top) ++ c2 :: bot) (2 * n) = Some c1 /\
  (forall i, (i < n)%nat ->
     nth_error (side ++ (c1 :: top) ++ c2 :: bot) (2 * n + 1 + i) = nth_error top i) /\
  nth_error (side ++ (c1 :: top) ++ c2 :: bot) (3 * n + 1) = Some c2 /\
  (forall i,
     nth_error (side ++ (c1 :: top) ++ c2 :: bot) (3 * n + 2 + i) = nth_error bot i).
Proof.
  intros Hs Ht. repeat split.
  - intros k Hk. apply nth_error_app1. lia.
  - rewrite nth_error_app2 by lia. rewrite Hs, Nat.sub_diag. reflexivity.
  - intros i Hi. rewrite nth_error_app2 by lia.
    replace (2 * n + 1 + i - length side)%nat with (S i) by lia.
    cbn [app nth_error]. apply nth_error_app1. lia.
  - rewrite nth_error_app2 by lia.
    replace (3 * n + 1 - length side)%nat with (S (length top)) by lia.
    cbn [app nth_error]. rewrite nth_error_app2 by lia.
    rewrite Nat.sub_diag. reflexivity.
  - intros i. rewrite nth_error_app2 by lia.
    replace (3 * n + 2 + i - length side)%nat with (S (length top + S i)) by lia.
    cbn [app nth_error]. rewrite nth_error_app2 by lia.
    replace (length top + S i - length top)%nat with (S i) by lia. reflexivity.
Qed.

Lemma create_cylinder_vertices (radius height : R) (segments : nat) (color : vec3)
    (ox oy oz : R) (top_radius : option R) (i : nat) :
  (i < segments)%nat ->
  let m := create_cylinder radius height segments color (ox, oy, oz) top_radius in
  let top := match top_radius with None => radius | Some t => t end in
  nth_error (positions m) (2 * i) = Some (ring_point ox oz radius oy i segments) /\
  nth_error (positions m) (2 * i + 1)
    = Some (ring_point ox oz top (oy + height) i segments) /\
  nth_error (positions m) (2 * segments) = Some (ox, oy + height, oz)%R /\
  nth_error (positions m) (2 * segments + 1 + i)
    = Some (ring_point ox oz top (oy + height) i segments) /\
  nth_error (positions m) (3 * segments + 1) = Some (ox, oy, oz) /\
  nth_error (positions m) (3 * segments + 2 + i)
    = Some (ring_point ox oz radius oy i segments).
Proof.
  intros Hi m top. unfold m, create_cylinder. fold top. cbn [positions]. unfold range.
  match goal with
  | |- context [?side ++ (?c1 :: ?tp) ++ ?c2 :: ?bt] =>
      destruct (nth_error_three_parts side tp bt c1 c2 segments)
        as (Hside & Hc1 & Htop & Hc2 & Hbot);
      [ rewrite (length_flat_map_const _ 2) by reflexivity; rewrite length_seq; reflexivity
      | rewrite length_map, length_seq; reflexivity | ]
  end.
  match goal with
  | |- context [flat_map (fun k => [@?f k; @?g k]) (seq 0 segments)] =>
      destruct (nth_error_pairs f g segments 0 i Hi) as [H0 H1]
  end.
  refine (conj _ (conj _ (conj _ (conj _ (conj _ _))))).
  - eapply eq_trans; [apply Hside; lia | exact H0].
  - eapply eq_trans; [apply Hside; lia | exact H1].
  - exact Hc1.
  - eapply eq_trans; [exact (Htop i Hi)|].
    exact (nth_error_map_seq (fun k => ring_point ox oz top (oy + height) k segments)
                             segments 0 i Hi).
  - exact Hc2.
  - eapply eq_trans; [exact (Hbot i)|].
    exact (nth_error_map_seq (fun k => ring_point ox oz radius oy k segments)
                             segments 0 i Hi).
Qed.

Lemma create_cylinder_normals_at (radius height : R) (segments : nat) (color : vec3)
    (ox oy oz : R) (top_radius : option R) (i : nat) :
  (i < segments)%nat ->
  let m := create_cylinder radius height segments color (ox, oy, oz) top_radius in
  nth_error (normals m) (2 * i) = Some (radial i segments) /\
  nth_error (normals m) (2 * i + 1) = Some (radial i segments) /\
  nth_error (normals m) (2 * segments) = Some (0, 1, 0)%R /\
  nth_error (normals m) (3 * segments + 1) = Some (0, -1, 0)%R.
Proof.
  intros Hi m. unfold m, create_cylinder. cbn [normals]. unfold range.
  match goal with
  | |- context [?side ++ (?c1 :: ?tp) ++ ?c2 :: ?bt] =>
      destruct (nth_error_three_parts side tp bt c1 c2 segments)
        as (Hside & Hc1 & _ & Hc2 & _);
      [ rewrite (length_flat_map_const _ 2) by reflexivity; rewrite length_seq; reflexivity
      | rewrite length_map, length_seq; reflexivity | ]
  end.
  match goal with
  | |- context [flat_map (fun k => [@?f k; @?g k]) (seq 0 segments)] =>
      destruct (nth_error_pairs f g segments 0 i Hi) as [H0 H1]
  end.
  refine (conj _ (conj _ (conj _ _))).
  - eapply eq_trans; [apply Hside; lia | exact H0].
  - eapply eq_trans; [apply Hside; lia | exact H1].
  - exact Hc1.
  - exact Hc2.
Qed.

Lemma length_loop_mod3 (f : nat -> list Z) (n c : nat) :
  (forall i, length (f i) = (3 * c)%nat) ->
  (length (flat_map f (range n)) mod 3 = 0)%nat.
Proof.
  intros H. rewrite (length_flat_map_const f (3 * c)) by exact H.
  replace (3 * c * length (range n))%nat with (c * length (range n) * 3)%nat by lia.
  apply Nat.Div0.mod_mul.
Qed.

Ltac orient_by Hstep k :=
  eexists; split; [reflexivity|];
  assert (0 < k)%R by (apply Rmult_lt_0_compat; assumption);
  unfold dot, cross, vsub, ring_point, radial; cbn [vx vy vz fst snd];
  match type of Hstep with
  | (sin ?a' * cos ?a - cos ?a' * sin ?a = _)%R =>
      generalize dependent (sin a'); generalize dependent (cos a');
      generalize dependent (sin a); generalize dependent (cos a)
  end;
  intros ca sa cj sj Hstep;
  match goal with
  | |- (?e < 0)%R =>
      replace e with (- (k * (sj * ca - cj * sa)))%R by ring
  end;
  rewrite Hstep; nra.

Ltac look_up k H :=
  eapply eq_trans; [apply (vertex_u32 _ _ k); unfold ZN in *; lia | exact H].

(** X26.  Cylinder triangles are wound the other way round: for
    [segments >= 3], positive radius, top radius and height (and a vertex
    count within the [uint32] range), every triangle of a cylinder, side
    and caps alike, is clockwise when seen from the side the normal of its
    first vertex points to (the triple product is negative), the opposite
    of the box. *)
Theorem create_cylinder_winding (radius height : R) (segments : nat) (color : vec3)
    (ox oy oz : R) (top_radius : option R) :
  let top := match top_radius with None => radius | Some t => t end in
  (0 < radius)%R -> (0 < height)%R -> (0 < top)%R ->
  (3 <= segments)%nat -> ZN (4 * segments + 2) <= 2 ^ 32 ->
  let m := create_cylinder radius height segments color (ox, oy, oz) top_radius in
  Forall (fun t => exists s, winding m t = Some s /\ (s < 0)%R)
         (triangles (indices m)).
Proof.
  intros top Hr Hh Ht Hseg Hfit m.
  set (P := fun t => exists s, winding m t = Some s /\ (s < 0)%R).
  assert (Hlook : forall i, (i < segments)%nat ->
            let j := next_step i segments in
            let B := fun k => Some (ring_point ox oz radius oy k segments) in
            let T := fun k => Some (ring_point ox oz top (oy + height) k segments) in
            vertex (positions m) (u32 (ZN i * 2)) = B i /\
            vertex (positions m) (u32 (ZN i * 2 + 1)) = T i /\
            vertex (positions m) (u32 (ZN j * 2)) = B j /\
            vertex (positions m) (u32 (ZN j * 2 + 1)) = T j /\
            vertex (positions m) (u32 (ZN (2 * segments)))
              = Some (ox, oy + height, oz)%R /\
            vertex (positions m) (u32 (ZN (2 * segments) + 1 + ZN i)) = T i /\
            vertex (positions m) (u32 (ZN (2 * segments) + 1 + ZN j)) = T j /\
            vertex (positions m) (u32 (ZN (2 * segments + S segments)))
              = Some (ox, oy, oz) /\
            vertex (positions m) (u32 (ZN (2 * segments + S segments) + 1 + ZN i)) = B i /\
            vertex (positions m) (u32 (ZN (2 * segments + S segments) + 1 + ZN j)) = B j /\
            vertex (normals m) (u32 (ZN i * 2)) = Some (radial i segments) /\
            vertex (normals m) (u32 (ZN i * 2 + 1)) = Some (radial i segments) /\
            vertex (normals m) (u32 (ZN (2 * segments))) = Some (0, 1, 0)%R /\
            vertex (normals m) (u32 (ZN (2 * segments + S segments)))
              = Some (0, -1, 0)%R).
  { intros i Hi j B T.
    assert (Hj : (j < segments)%nat) by (apply next_step_lt; lia).
    destruct (create_cylinder_vertices radius height segments color ox oy oz top_radius
                i Hi) as (Pi0 & Pi1 & Ptc & Pit & Pbc & Pib).
    destruct (create_cylinder_vertices radius height segments color ox oy oz top_radius
                j Hj) as (Pj0 & Pj1 & _ & Pjt & _ & Pjb).
    destruct (create_cylinder_normals_at radius height segments color ox oy oz top_radius
                i Hi) as (Ni0 & Ni1 & Ntc & Nbc).
    fold m top in Pi0, Pi1, Ptc, Pit, Pbc, Pib, Pj0, Pj1, Pjt, Pjb, Ni0, Ni1, Ntc, Nbc.
    unfold B, T.
    refine (conj _ (conj _ (conj _ (conj _ (conj _ (conj _ (conj _ (conj _ (conj _
            (conj _ (conj _ (conj _ (conj _ _))))))))))))).
    - look_up (2 * i)%nat Pi0.
    - look_up (2 * i + 1)%nat Pi1.
    - look_up (2 * j)%nat Pj0.
    - look_up (2 * j + 1)%nat Pj1.
    - look_up (2 * segments)%nat Ptc.
    - look_up (2 * segments + 1 + i)%nat Pit.
    - look_up (2 * segments + 1 + j)%nat Pjt.
    - look_up (3 * segments + 1)%nat Pbc.
    - look_up (3 * segments + 2 + i)%nat Pib.
    - look_up (3 * segments + 2 + j)%nat Pjb.
    - look_up (2 * i)%nat Ni0.
    - look_up (2 * i + 1)%nat Ni1.
    - look_up (2 * segments)%nat Ntc.
    - look_up (3 * segments + 1)%nat Nbc. }
  unfold m. unfold create_cylinder; cbn [indices]. fold top.
  unfold uint32_array. rewrite triangles_map. apply Forall_map.
  rewrite !triangles_app
    by first [ apply (length_loop_mod3 _ _ 2); reflexivity
             | apply (length_loop_mod3 _ _ 1); reflexivity ].
  repeat rewrite Forall_app. repeat split;
    apply Forall_triangles_loop; intros i Hi; (split; [reflexivity|]);
    destruct (Hlook i Hi)
      as (V0 & V1 & W0 & W1 & Vtc & Vti & Vtj & Vbc & Vbi & Vbj & N0 & N1 & Ntc & Nbc);
    destruct (ring_step_sine i segments Hseg Hi) as [Hstep Hpos]; cbv zeta in *;
    rewrite next_step_Z; count_lengths; fold (ZN (2 * segments));
    fold (ZN (2 * segments + S segments)); fold (ZN i);
    fold (ZN (next_step i segments));
    cbn [triangles]; each_element; unfold P, winding.
  - rewrite V0, W0, V1, N0. orient_by Hstep (radius * height)%R.
  - rewrite V1, W0, W1, N1. orient_by Hstep (top * height)%R.
  - rewrite Vtc, Vti, Vtj, Ntc. orient_by Hstep (top * top)%R.
  - rewrite Vbc, Vbj, Vbi, Nbc. orient_by Hstep (radius * radius)%R.
Qed.

Lemma create_cylinder_winding_witness :
  let m := create_cylinder 0.015 0.085 6 (0.55, 0.12, 0.1)%R (-0.0575, 0, 0.035)%R None in
  Forall (fun t => exists s, winding m t = Some s /\ (s < 0)%R)
         (triangles (indices m)).
Proof.
  apply (create_cylinder_winding 0.015 0.085 6 (0.55, 0.12, 0.1)%R
                                 (-0.0575) 0 0.035 None);
    cbv zeta; try lra; [lia | unfold ZN; lia].
Defined.
